(** * k8s-tui: the deployment controller (pkg/controller)

  A shallow embedding of the reconciliation core of the controller:
  the event handlers registered in [NewController], the startup
  sequence [Run], the worker step [processNextItem], the business
  logic [syncDeployment] / [deleteDeplotment], the retry policy
  [handleErr] and the decode helper [castObjToDeployment].

  The controller is written against three client-go interfaces whose
  implementations live outside the repository: the key functions of
  [cache], the [cache.Indexer] store and the rate limiting work queue.
  Each gets a small executable model below. *)

From Stdlib Require Import Ascii.
From stdpp Require Import base strings gmap list sorting.

Open Scope string_scope.

(** ** API objects *)

Module api.

(** [metav1.ObjectMeta], restricted to the fields the controller reads. *)
Record ObjectMeta := mkMeta {
  Namespace : string;
  Name : string;
  UID : string;
  ResourceVersion : string;
}.

(** [appsv1.Deployment]: metadata plus the desired replica count, which
    stands for the rest of the resource state. *)
Record Deployment := mkDeployment {
  meta : ObjectMeta;
  Replicas : Z;
}.

Definition GetNamespace (d : Deployment) : string := Namespace (meta d).
Definition GetName (d : Deployment) : string := Name (meta d).

(** A Go [error] is its message; [None] is the nil error. *)
Definition error := string.

(** The dynamic values that flow through [interface{}] parameters. *)
Inductive obj :=
| ONil
| ODeployment (d : Deployment)
| OOther (kind : string) (m : ObjectMeta)
| OExplicitKey (k : string)
| ODeletedFinalStateUnknown (key : string) (o : obj)
| OOpaque (descr : string).

(** [meta.Accessor]: the metadata of any value that is an API object. *)
Definition Accessor (o : obj) : ObjectMeta + error :=
  match o with
  | ODeployment d => inl (meta d)
  | OOther _ m => inl m
  | _ => inr "object does not implement the Object interfaces"
  end.

End api.
Import api.

(** ** client-go: tools/cache *)

Module cache.

(** Modelled from the spec: [cache.MetaNamespaceKeyFunc] belongs to
    client-go and is not part of the repository.  The spec's data model
    gives a ResourceKey the form <namespace>/<name>, derived from the
    namespace and name fields; client-go prints a cluster scoped object
    (empty namespace) as its bare name and accepts an explicit key. *)
Definition MetaNamespaceKeyFunc (o : obj) : string + error :=
  match o with
  | OExplicitKey k => inl k
  | _ =>
    match Accessor o with
    | inr e => inr ("object has no meta: " +:+ e)
    | inl m =>
      if decide (Namespace m = "") then inl (Name m)
      else inl (Namespace m +:+ "/" +:+ Name m)
    end
  end.

(** Modelled from the spec: [cache.DeletionHandlingMetaNamespaceKeyFunc]
    (client-go).  A deleted resource is keyed from its last known
    metadata; a tombstone carries the key it was stored under. *)
Definition DeletionHandlingMetaNamespaceKeyFunc (o : obj) : string + error :=
  match o with
  | ODeletedFinalStateUnknown key _ => inl key
  | _ => MetaNamespaceKeyFunc o
  end.

(** [cache.Indexer], as far as the controller uses it: the Go triple
    [(item, exists, err)] returned by [GetByKey]. *)
Record Indexer := mkIndexer {
  GetByKey : string -> obj * bool * option error;
}.

(** The thread safe store client-go hands out: a keyed map whose point
    lookup never fails. *)
Definition storeIndexer (items : gmap string obj) : Indexer :=
  {| GetByKey key :=
       match items !! key with
       | Some o => (o, true, None)
       | None => (ONil, false, None)
       end |}.

(** One polling round of [cache.WaitForCacheSync]: the informer reports
    that it has synced, the stop channel is found closed, or neither. *)
Inductive round := Synced | Stopped | Pending.

#[global] Instance round_eq_dec : EqDecision round.
Proof. solve_decision. Defined.

(** Modelled from the spec: [cache.WaitForCacheSync] (client-go) polls
    the readiness signal until it is true or the wait is given up.
    [Some b] is the value returned; [None] means that the call is still
    blocked after the rounds observed so far. *)
Fixpoint WaitForCacheSync (rounds : list round) : option bool :=
  match rounds with
  | [] => None
  | Synced :: _ => Some true
  | Stopped :: _ => Some false
  | Pending :: rest => WaitForCacheSync rest
  end.

(** The rounds the call consumed before it returned. *)
Fixpoint polled (rounds : list round) : list round :=
  match rounds with
  | [] => []
  | Pending :: rest => Pending :: polled rest
  | r :: _ => [r]
  end.

End cache.

(** ** client-go: util/workqueue *)

Module workqueue.

(** Modelled from the spec: the rate limiting work queue is client-go's
    and is not part of the repository.  Section 4.2 of the spec fixes
    its contract: pending keys, the in-flight and dirty marks, the
    shutdown flag and a retry count per key; a rate limited re-add
    waits for its backoff delay and is recorded with the retry count
    that determines the delay. *)
Record t := mk {
  queue : list string;
  dirty : gset string;
  processing : gset string;
  shuttingDown : bool;
  failures : gmap string nat;
  waitingForAdd : list (string * nat);
}.

Definition empty : t :=
  {| queue := []; dirty := ∅; processing := ∅; shuttingDown := false;
     failures := ∅; waitingForAdd := [] |}.

(** [Add]: a no-op after shutdown and for a key already pending; a key
    in flight is only marked dirty. *)
Definition Add (key : string) (q : t) : t :=
  if shuttingDown q then q
  else if decide (key ∈ dirty q) then q
  else if decide (key ∈ processing q) then
    {| queue := queue q; dirty := {[key]} ∪ dirty q;
       processing := processing q; shuttingDown := shuttingDown q;
       failures := failures q; waitingForAdd := waitingForAdd q |}
  else
    {| queue := queue q ++ [key]; dirty := {[key]} ∪ dirty q;
       processing := processing q; shuttingDown := shuttingDown q;
       failures := failures q; waitingForAdd := waitingForAdd q |}.

(** [Get]: [None] while the caller stays blocked (nothing pending, not
    shut down); otherwise the key, the shutdown signal and the queue
    with the key marked in flight. *)
Definition Get (q : t) : option (string * bool * t) :=
  match queue q with
  | [] => if shuttingDown q then Some ("", true, q) else None
  | key :: rest =>
    Some (key, false,
          {| queue := rest; dirty := dirty q ∖ {[key]};
             processing := {[key]} ∪ processing q;
             shuttingDown := shuttingDown q;
             failures := failures q; waitingForAdd := waitingForAdd q |})
  end.

(** [Done]: the key is no longer in flight; a key marked dirty in the
    meantime is pending again. *)
Definition Done (key : string) (q : t) : t :=
  {| queue := if decide (key ∈ dirty q) then queue q ++ [key] else queue q;
     dirty := dirty q;
     processing := processing q ∖ {[key]};
     shuttingDown := shuttingDown q;
     failures := failures q; waitingForAdd := waitingForAdd q |}.

(** [NumRequeues]: the retry count of the key. *)
Definition NumRequeues (key : string) (q : t) : nat :=
  default 0 (failures q !! key).

(** [AddRateLimited]: the rate limiter is asked for the delay, which
    increments the retry count; the re-add then waits for that delay,
    unless the queue is shutting down. *)
Definition AddRateLimited (key : string) (q : t) : t :=
  let n := NumRequeues key q in
  {| queue := queue q; dirty := dirty q; processing := processing q;
     shuttingDown := shuttingDown q;
     failures := <[key := S n]> (failures q);
     waitingForAdd :=
       if shuttingDown q then waitingForAdd q
       else waitingForAdd q ++ [(key, n)] |}.

(** [Forget]: the retry count is dropped; queue membership is left
    alone. *)
Definition Forget (key : string) (q : t) : t :=
  {| queue := queue q; dirty := dirty q; processing := processing q;
     shuttingDown := shuttingDown q;
     failures := delete key (failures q);
     waitingForAdd := waitingForAdd q |}.

Definition ShutDown (q : t) : t :=
  {| queue := queue q; dirty := dirty q; processing := processing q;
     shuttingDown := true;
     failures := failures q; waitingForAdd := waitingForAdd q |}.

(** The delay of the oldest waiting re-add elapses: it is added. *)
Definition fire (q : t) : t :=
  match waitingForAdd q with
  | [] => q
  | (key, _) :: rest =>
    Add key
      {| queue := queue q; dirty := dirty q; processing := processing q;
         shuttingDown := shuttingDown q;
         failures := failures q; waitingForAdd := rest |}
  end.

End workqueue.

(** ** pkg/controller *)

Module controller.

(** The calls the controller makes on its collaborators, in the order
    they happen: the work queue, the error sink [runtime.HandleError],
    the informer and the goroutines it starts. *)
Inductive call :=
| CAdd (key : string)
| CGet (key : string) (quit : bool)
| CDone (key : string)
| CNumRequeues (key : string) (n : nat)
| CAddRateLimited (key : string)
| CForget (key : string)
| CShutDown
| CHandleError (err : error)
| CHandleCrash (msg : string)
| CInformerRun
| CHasSynced (r : cache.round)
| CRunWorker.

#[global] Instance call_eq_dec : EqDecision call.
Proof. solve_decision. Defined.

(** [map[string]*appsv1.Deployment]; [None] is the nil map. *)
Abbreviation deployments := (option (gmap string Deployment)).

Record Controller := mkController {
  Indexer : cache.Indexer;
  queue : workqueue.t;
  CurrentDeployments : deployments;
}.

Definition with_queue (q : workqueue.t) (c : Controller) : Controller :=
  {| Indexer := Indexer c; queue := q;
     CurrentDeployments := CurrentDeployments c |}.

Definition with_deployments (m : deployments) (c : Controller) : Controller :=
  {| Indexer := Indexer c; queue := queue c; CurrentDeployments := m |}.

(** How a call ends: it returns, it panics, it is still blocked (in [Get]
    or in the cache synchronization), or the process has died from a
    panic in another goroutine. *)
Inductive outcome (A : Type) :=
| Returned (a : A)
| Panicked (msg : string)
| Blocked
| Crashed (msg : string).
Arguments Returned {A} a.
Arguments Panicked {A} msg.
Arguments Blocked {A}.
Arguments Crashed {A} msg.

(** The result of running a piece of controller code: its outcome, the
    controller afterwards and the calls it made. *)
Record res (A : Type) := mkRes {
  out : outcome A;
  st : Controller;
  calls : list call;
}.
Arguments mkRes {A} out st calls.
Arguments out {A} r.
Arguments st {A} r.
Arguments calls {A} r.

Definition M (A : Type) : Type := Controller -> res A.

Definition ret {A} (a : A) : M A := fun c => mkRes (Returned a) c [].

Definition bind {A B} (m : M A) (f : A -> M B) : M B := fun c =>
  match m c with
  | mkRes (Returned a) c1 l1 =>
    match f a c1 with
    | mkRes o c2 l2 => mkRes o c2 (l1 ++ l2)
    end
  | mkRes (Panicked msg) c1 l1 => mkRes (Panicked msg) c1 l1
  | mkRes Blocked c1 l1 => mkRes Blocked c1 l1
  | mkRes (Crashed msg) c1 l1 => mkRes (Crashed msg) c1 l1
  end.

#[global] Instance M_ret : MRet M := @ret.
#[global] Instance M_bind : MBind M := fun A B f m => bind m f.

Definition panic {A} (msg : string) : M A := fun c => mkRes (Panicked msg) c [].

(** [defer d] followed by [body]: [d] runs when [body] returns and also
    while a panic of [body] unwinds; the outcome of [body] stands unless
    [d] itself fails. *)
Definition defer {A} (d : M unit) (body : M A) : M A := fun c =>
  match body c with
  | mkRes (Blocked as o) c1 l1 | mkRes (Crashed _ as o) c1 l1 => mkRes o c1 l1
  | mkRes o c1 l1 =>
    match d c1 with
    | mkRes (Returned _) c2 l2 => mkRes o c2 (l1 ++ l2)
    | mkRes (Panicked msg) c2 l2 => mkRes (Panicked msg) c2 (l1 ++ l2)
    | mkRes Blocked c2 l2 => mkRes Blocked c2 (l1 ++ l2)
    | mkRes (Crashed msg) c2 l2 => mkRes (Crashed msg) c2 (l1 ++ l2)
    end
  end.

(** *** The work queue, as called through [c.queue] *)

Definition queue_Add (key : string) : M unit := fun c =>
  mkRes (Returned ()) (with_queue (workqueue.Add key (queue c)) c) [CAdd key].

Definition queue_Get : M (string * bool) := fun c =>
  match workqueue.Get (queue c) with
  | None => mkRes Blocked c []
  | Some (key, quit, q) =>
    mkRes (Returned (key, quit)) (with_queue q c) [CGet key quit]
  end.

Definition queue_Done (key : string) : M unit := fun c =>
  mkRes (Returned ()) (with_queue (workqueue.Done key (queue c)) c) [CDone key].

Definition queue_NumRequeues (key : string) : M nat := fun c =>
  let n := workqueue.NumRequeues key (queue c) in
  mkRes (Returned n) c [CNumRequeues key n].

Definition queue_AddRateLimited (key : string) : M unit := fun c =>
  mkRes (Returned ()) (with_queue (workqueue.AddRateLimited key (queue c)) c)
        [CAddRateLimited key].

Definition queue_Forget (key : string) : M unit := fun c =>
  mkRes (Returned ()) (with_queue (workqueue.Forget key (queue c)) c)
        [CForget key].

Definition queue_ShutDown : M unit := fun c =>
  mkRes (Returned ()) (with_queue (workqueue.ShutDown (queue c)) c) [CShutDown].

(** [runtime.HandleError]: the error goes to the error reporting sink. *)
Definition HandleError (err : error) : M unit := fun c =>
  mkRes (Returned ()) c [CHandleError err].

(** *** NewController *)

(** The three event handlers close over the queue only. *)
Definition AddFunc (o : obj) : M unit :=
  match cache.MetaNamespaceKeyFunc o with
  | inl key => queue_Add key
  | inr _ => mret ()
  end.

Definition UpdateFunc (old new : obj) : M unit :=
  match cache.MetaNamespaceKeyFunc new with
  | inl key => queue_Add key
  | inr _ => mret ()
  end.

Definition DeleteFunc (o : obj) : M unit :=
  match cache.DeletionHandlingMetaNamespaceKeyFunc o with
  | inl key => queue_Add key
  | inr _ => mret ()
  end.

Definition NewController (indexer : cache.Indexer) : Controller :=
  {| Indexer := indexer;
     queue := workqueue.empty;
     CurrentDeployments := Some ∅ |}.

(** *** castObjToDeployment *)

Definition castObjToDeployment (o : obj) : Deployment + error :=
  match o with
  | ODeployment d => inl d
  | _ =>
    match Accessor o with
    | inr e =>
      inr ("could not cast obj to deployment, failed to create accessor, got err: "
             +:+ e)
    | inl m =>
      inr ("could not cast obj " +:+ Namespace m +:+ "/" +:+ Name m
             +:+ " (uid: " +:+ UID m +:+ ") to deployment")
    end
  end.

(** *** deleteDeplotment *)

(** [delete(c.CurrentDeployments, key)]; deleting from a nil map is a
    no-op. *)
Definition deleteDeplotment (key : string) : M (option error) := fun c =>
  mkRes (Returned None)
        (with_deployments (delete key <$> CurrentDeployments c) c) [].

(** *** syncDeployment *)

(** [c.CurrentDeployments[k] = d]; assigning into a nil map panics. *)
Definition store (k : string) (d : Deployment) : M unit := fun c =>
  match CurrentDeployments c with
  | None => mkRes (Panicked "assignment to entry in nil map") c []
  | Some m => mkRes (Returned ()) (with_deployments (Some (<[k := d]> m)) c) []
  end.

Definition Indexer_GetByKey (key : string) : M (obj * bool * option error) :=
  fun c => mkRes (Returned (cache.GetByKey (Indexer c) key)) c [].

Definition syncDeployment (key : string) : M (option error) :=
  '(o, exists_, err) ← Indexer_GetByKey key;
  match err with
  | Some e => mret (Some e)
  | None =>
    if negb exists_ then deleteDeplotment key
    else
      match castObjToDeployment o with
      | inr e => mret (Some e)
      | inl changedDeployment =>
        store (GetNamespace changedDeployment +:+ "/"
                 +:+ GetName changedDeployment) changedDeployment;;
        mret None
      end
  end.

(** *** handleErr *)

Definition handleErr (err : option error) (key : string) : M unit :=
  match err with
  | None => queue_Forget key
  | Some e =>
    n ← queue_NumRequeues key;
    if decide (n < 5) then queue_AddRateLimited key
    else queue_Forget key;; HandleError e
  end.

(** *** processNextItem and RunWorker *)

Definition processNextItem : M bool :=
  '(key, quit) ← queue_Get;
  if (quit : bool) then mret false
  else
    defer (queue_Done key)
      (err ← syncDeployment key;
       handleErr err key;;
       mret true).

(** [for c.processNextItem() {}], cut off after [fuel] iterations:
    [true] when the loop has exited, [false] when it is still going. *)
Fixpoint RunWorker (fuel : nat) : M bool :=
  match fuel with
  | 0 => mret false
  | S n =>
    continue ← processNextItem;
    if (continue : bool) then RunWorker n else mret true
  end.

(** *** Run *)

(** [cache.WaitForCacheSync(stopCh, c.Informer.HasSynced)] over the
    polling rounds the environment offers. *)
Definition WaitForCacheSync (rounds : list cache.round) : M bool := fun c =>
  mkRes
    match cache.WaitForCacheSync rounds with
    | Some b => Returned b
    | None => Blocked
    end
    c (CHasSynced <$> cache.polled rounds).

(** [wait.Until(c.RunWorker, time.Second, stopCh)]: the worker loop is
    started again whenever it returns; [periods] gives the iterations
    each start gets before the stop channel closes. *)
Fixpoint wait_Until (periods : list nat) : M unit :=
  match periods with
  | [] => mret ()
  | fuel :: rest =>
    exited ← RunWorker fuel;
    if (exited : bool) then wait_Until rest else mret ()
  end.

(** [go f()]: the goroutine runs beside the caller, which goes on even
    when [f] parks; a panic in it takes the process down. *)
Definition go (name : call) (f : M unit) : M unit := fun c =>
  match f c with
  | mkRes (Panicked msg) c1 l1 | mkRes (Crashed msg) c1 l1 =>
    mkRes (Crashed msg) c1 (name :: l1)
  | mkRes _ c1 l1 => mkRes (Returned ()) c1 (name :: l1)
  end.

(** [defer runtime.HandleCrash()]: a panic is reported and raised
    again. *)
Definition defer_HandleCrash {A} (body : M A) : M A := fun c =>
  match body c with
  | mkRes (Panicked msg) c1 l1 =>
    mkRes (Panicked msg) c1 (l1 ++ [CHandleCrash msg])
  | r => r
  end.

Definition Run (rounds : list cache.round) (periods : list nat) : M unit :=
  defer_HandleCrash
    (defer queue_ShutDown
       (go CInformerRun (mret ());;
        synced ← WaitForCacheSync rounds;
        if negb synced then
          HandleError "timed out waiting for caches to sync"
        else
          go CRunWorker (wait_Until periods)
          (* <-stopCh *)
       )).

(** *** Observations and scenarios *)

(** What the exposed view holds for a key; a nil map has no entries. *)
Definition entry (key : string) (c : Controller) : option Deployment :=
  match CurrentDeployments c with
  | Some m => m !! key
  | None => None
  end.

(** The keys handed to [AddRateLimited], in order. *)
Definition requeues (l : list call) : list string :=
  omap (λ x, match x with CAddRateLimited k => Some k | _ => None end) l.

(** The errors handed to the error sink, in order. *)
Definition reports (l : list call) : list error :=
  omap (λ x, match x with CHandleError e => Some e | _ => None end) l.

Definition is_Get (x : call) : bool :=
  match x with CGet _ _ => true | _ => false end.

Definition is_Done (x : call) : bool :=
  match x with CDone _ => true | _ => false end.


(** The retry policy applied to [n] failures of one key in a row. *)
Fixpoint fail_repeatedly (n : nat) (e : error) (key : string) : M unit :=
  match n with
  | 0 => mret ()
  | S n => handleErr (Some e) key;; fail_repeatedly n e key
  end.

(** The backoff delay of the oldest rate limited re-add elapses. *)
Definition timer_fires : M unit := fun c =>
  mkRes (Returned ()) (with_queue (workqueue.fire (queue c)) c) [].

(** [n] worker steps, each followed by the expiry of the pending
    backoff delay. *)
Fixpoint attempts (n : nat) : M unit :=
  match n with
  | 0 => mret ()
  | S n => processNextItem;; timer_fires;; attempts n
  end.

(** A key whose reconciliation fails with [e] is the only pending item of
    a running queue, with [n] requeues behind it and nothing waiting. *)
Definition failing_key (e : error) (key : string) (n : nat) (c : Controller) : Prop :=
  workqueue.queue (queue c) = [key] ∧
  workqueue.waitingForAdd (queue c) = [] ∧
  workqueue.shuttingDown (queue c) = false ∧
  ¬ (key ∈ workqueue.processing (queue c)) ∧
  workqueue.NumRequeues key (queue c) = n ∧
  (cache.GetByKey (Indexer c) key).2 = Some e.

(** Nothing pending, nothing waiting, not shut down: a worker parks. *)
Definition idle (c : Controller) : Prop :=
  workqueue.queue (queue c) = [] ∧
  workqueue.waitingForAdd (queue c) = [] ∧
  workqueue.shuttingDown (queue c) = false.

(** The decode step as the design notes word it: an event object that is
    not a Deployment is rejected where the event arrives, so that the
    handler enqueues nothing for it, and the reconciliation of a key
    never returns the cast error. *)
Definition decoded_at_watcher_boundary : Prop :=
  forall (o : obj) (c : Controller) (msg : error),
    castObjToDeployment o = inr msg ->
    calls (AddFunc o c) = [] ∧
    forall (key : string) (c' : Controller),
      cache.GetByKey (Indexer c') key = (o, true, None) ->
      out (syncDeployment key c') ≠ Returned (Some msg).



(** *** Sample controllers *)

Definition sample_deployment : Deployment :=
  mkDeployment (mkMeta "ns" "a" "u-1" "7") 3.

(** An older version of the same resource. *)
Definition stale_deployment : Deployment :=
  mkDeployment (mkMeta "ns" "a" "u-1" "6") 1.

(** A store whose point lookup fails for every key. *)
Definition unavailable_store : cache.Indexer :=
  cache.mkIndexer (λ _, (ONil, false, Some "store unavailable")).

(** ns/a is pending; the store cannot be read. *)
Definition sample_failing : Controller :=
  st (AddFunc (ODeployment sample_deployment) (NewController unavailable_store)).

(** ns/a is pending and the store holds the deployment. *)
Definition sample_synced : Controller :=
  st (AddFunc (ODeployment sample_deployment)
        (NewController
           (cache.storeIndexer {["ns/a" := ODeployment sample_deployment]}))).

(** ns/a is pending and the store holds nothing. *)
Definition sample_deleted : Controller :=
  st (DeleteFunc (ODeployment sample_deployment)
        (NewController (cache.storeIndexer ∅))).

(** As [sample_synced], with a nil [CurrentDeployments] map. *)
Definition sample_nil_map : Controller :=
  with_deployments None sample_synced.

End controller.
Import controller.

(** ** pkg/model: the terminal view over the controller *)

Module tui.

Inductive state := initializing | ready.

(** The Bubble Tea model.  The mutex guards [Update] and [View] against
    each other and has no sequential effect; the controller is the one
    of the previous section and is passed where it is read. *)
Record model := mkModel {
  choices : list string;
  cursor : Z;
  selected : gset Z;
  model_state : state;
}.

(** The messages [Update] distinguishes: the periodic snapshot of
    [CurrentDeployments], a key press (by its [String()]), anything
    else. *)
Inductive Msg :=
| deploymentMsg (d : deployments)
| KeyMsg (key : string)
| OtherMsg.

(** The commands [Update] returns: none, [tea.Quit], or the one second
    tick of [checkDeployments]. *)
Inductive Cmd := CmdNil | CmdQuit | CmdTick.

Definition InitialModel : model :=
  {| choices := []; cursor := 0; selected := ∅; model_state := initializing |}.

(** What the tick of [checkDeployments] delivers when it fires. *)
Definition checkDeployments (c : Controller) : Msg :=
  deploymentMsg (CurrentDeployments c).

(** [sort.Strings]: ascending byte-wise order. *)
Definition sort_Strings (keys : list string) : list string :=
  merge_sort String.le keys.

(** The keys of the map in the order [range] yields them, which Go leaves
    unspecified; a nil map has none. *)
Definition range_keys (deploymentMap : deployments) : list string :=
  match deploymentMap with
  | Some m => (map_to_list m).*1
  | None => []
  end.

Definition convertToSliceAndSort (deploymentMap : deployments) : list string :=
  sort_Strings (range_keys deploymentMap).

(** [strings.ReplaceAll(s, "/", "\t")]. *)
Fixpoint splitTheStringAndAddTabs (s : string) : string :=
  match s with
  | EmptyString => EmptyString
  | String c rest =>
    String (if decide (c = "/"%char) then "009"%char else c)
           (splitTheStringAndAddTabs rest)
  end.

Definition with_cursor (n : Z) (m : model) : model :=
  {| choices := choices m; cursor := n; selected := selected m;
     model_state := model_state m |}.

Definition with_selected (s : gset Z) (m : model) : model :=
  {| choices := choices m; cursor := cursor m; selected := s;
     model_state := model_state m |}.

Definition Update (m : model) (msg : Msg) : model * Cmd :=
  match msg with
  | deploymentMsg d =>
    let newChoices := convertToSliceAndSort d in
    ({| choices := newChoices;
        cursor := if decide (length (choices m) < length newChoices)%nat
                  then 0 else cursor m;
        selected := selected m;
        model_state := ready |},
     CmdTick)
  | KeyMsg key =>
    if decide (key = "ctrl+c" ∨ key = "q") then (m, CmdQuit)
    else if decide (key = "up" ∨ key = "k") then
      (if decide (cursor m > 0)%Z then with_cursor (cursor m - 1) m else m,
       CmdNil)
    else if decide (key = "down" ∨ key = "j") then
      (if decide (cursor m < Z.of_nat (length (choices m)) - 1)%Z
       then with_cursor (cursor m + 1) m else m,
       CmdNil)
    else if decide (key = "enter" ∨ key = " ") then
      (if decide (cursor m ∈ selected m)
       then with_selected (selected m ∖ {[cursor m]}) m
       else with_selected ({[cursor m]} ∪ selected m) m,
       CmdNil)
    else (m, CmdNil)
  | OtherMsg => (m, CmdNil)
  end.

(** The cursor points at a row, or at 0 when there is none. *)
Definition cursor_in_range (m : model) : Prop :=
  (0 ≤ cursor m)%Z ∧
  (cursor m < Z.of_nat (length (choices m)) ∨ cursor m = 0)%Z.

End tui.

(** The controller after the informer has changed what the store
    holds. *)
Definition with_indexer (i : cache.Indexer) (c : Controller) : Controller :=
  {| Indexer := i; queue := queue c;
     CurrentDeployments := CurrentDeployments c |}.

(** * Properties *)

Open Scope list_scope.
Open Scope nat_scope.
Set Warnings "-clear-no-such-hyp".

(** ** Monad plumbing *)

(** Reduction restricted to the record fields of the model, so that the
    finite sets and maps inside the queue stay folded. *)
Ltac wq :=
  cbn [workqueue.queue workqueue.dirty workqueue.processing
       workqueue.shuttingDown workqueue.failures workqueue.waitingForAdd
       queue Indexer CurrentDeployments with_queue with_deployments
       st out calls app fst snd].

Lemma res_eta {A} (r : res A) : mkRes (out r) (st r) (calls r) = r.
Proof. by destruct r. Qed.

(** [bind] in terms of the outcome of its first part. *)
Lemma bind_eq {A B} (m : M A) (f : A -> M B) c :
  bind m f c
  = match out (m c) with
    | Returned a =>
      mkRes (out (f a (st (m c)))) (st (f a (st (m c))))
            (calls (m c) ++ calls (f a (st (m c))))
    | Panicked msg => mkRes (Panicked msg) (st (m c)) (calls (m c))
    | Blocked => mkRes Blocked (st (m c)) (calls (m c))
    | Crashed msg => mkRes (Crashed msg) (st (m c)) (calls (m c))
    end.
Proof.
  unfold bind. destruct (m c) as [[a|msg| |msg] c1 l1]; cbn [out st calls];
    try done.
  by destruct (f a c1).
Qed.

Lemma mbind_eq {A B} (m : M A) (f : A -> M B) c :
  (m ≫= f) c = bind m f c.
Proof. done. Qed.

(** The deferred [Done] after a body that returned or panicked. *)
Lemma defer_Done_eq {A} key (body : M A) c :
  (exists a, out (body c) = Returned a)
  ∨ (exists msg, out (body c) = Panicked msg) ->
  defer (queue_Done key) body c
  = mkRes (out (body c))
          (with_queue (workqueue.Done key (queue (st (body c)))) (st (body c)))
          (calls (body c) ++ [CDone key]).
Proof.
  unfold defer, queue_Done.
  destruct (body c) as [[a|msg| |msg] c1 l1]; cbn [out st calls];
    intros [[? H]|[? H]]; try discriminate H; done.
Qed.

Lemma with_queue_queue q c : queue (with_queue q c) = q.
Proof. done. Qed.

(** ** The work queue model *)

Lemma NumRequeues_AddRateLimited key q :
  workqueue.NumRequeues key (workqueue.AddRateLimited key q)
  = S (workqueue.NumRequeues key q).
Proof.
  unfold workqueue.NumRequeues at 1. unfold workqueue.AddRateLimited. wq.
  by rewrite lookup_insert_eq.
Qed.

Lemma NumRequeues_Forget key q :
  workqueue.NumRequeues key (workqueue.Forget key q) = 0.
Proof.
  unfold workqueue.NumRequeues, workqueue.Forget. wq.
  by rewrite lookup_delete_eq.
Qed.

Lemma Get_head key rest q :
  workqueue.queue q = key :: rest ->
  workqueue.Get q
  = Some (key, false,
          {| workqueue.queue := rest;
             workqueue.dirty := workqueue.dirty q ∖ {[key]};
             workqueue.processing := {[key]} ∪ workqueue.processing q;
             workqueue.shuttingDown := workqueue.shuttingDown q;
             workqueue.failures := workqueue.failures q;
             workqueue.waitingForAdd := workqueue.waitingForAdd q |}).
Proof. intros H. unfold workqueue.Get. by rewrite H. Qed.

(** ** syncDeployment *)

(** The three ways the store can answer, and what the reconciliation
    does with each. *)
Lemma syncDeployment_lookup_error key c o ex e :
  cache.GetByKey (Indexer c) key = (o, ex, Some e) ->
  syncDeployment key c = mkRes (Returned (Some e)) c [].
Proof.
  intros H. unfold syncDeployment, Indexer_GetByKey.
  rewrite mbind_eq. unfold bind. by rewrite H.
Qed.

Lemma syncDeployment_absent key c o :
  cache.GetByKey (Indexer c) key = (o, false, None) ->
  syncDeployment key c = deleteDeplotment key c.
Proof.
  intros H. unfold syncDeployment, Indexer_GetByKey.
  rewrite mbind_eq. unfold bind, deleteDeplotment. by rewrite H.
Qed.

Lemma syncDeployment_present key c o :
  cache.GetByKey (Indexer c) key = (o, true, None) ->
  syncDeployment key c
  = match castObjToDeployment o with
    | inr e => mkRes (Returned (Some e)) c []
    | inl d =>
      match CurrentDeployments c with
      | None => mkRes (Panicked "assignment to entry in nil map") c []
      | Some m =>
        mkRes (Returned None)
          (with_deployments
             (Some (<[GetNamespace d +:+ "/" +:+ GetName d := d]> m)) c) []
      end
    end.
Proof.
  intros H. unfold syncDeployment, Indexer_GetByKey.
  rewrite mbind_eq. unfold bind. rewrite H. cbn [negb].
  destruct (castObjToDeployment o) as [d|e]; [|done].
  unfold mbind, M_bind, bind, store.
  by destruct (CurrentDeployments c).
Qed.

(** The reconciliation makes no call on the queue or the error sink, and
    it either returns or panics. *)
Lemma syncDeployment_ends key c :
  calls (syncDeployment key c) = [] ∧
  ((exists err, out (syncDeployment key c) = Returned err)
   ∨ exists msg, out (syncDeployment key c) = Panicked msg).
Proof.
  destruct (cache.GetByKey (Indexer c) key) as [[o ex] [e|]] eqn:H.
  - rewrite (syncDeployment_lookup_error _ _ _ _ _ H). eauto.
  - destruct ex.
    + rewrite (syncDeployment_present _ _ _ H).
      destruct (castObjToDeployment o); [|eauto].
      destruct (CurrentDeployments c); eauto.
    + rewrite (syncDeployment_absent _ _ _ H). unfold deleteDeplotment. eauto.
Qed.

(** An error exit of the reconciliation is taken before anything is
    written. *)
Lemma syncDeployment_error_state key c e :
  out (syncDeployment key c) = Returned (Some e) ->
  syncDeployment key c = mkRes (Returned (Some e)) c [].
Proof.
  destruct (cache.GetByKey (Indexer c) key) as [[o ex] [err|]] eqn:H.
  - rewrite (syncDeployment_lookup_error _ _ _ _ _ H). by intros [= ->].
  - destruct ex.
    + rewrite (syncDeployment_present _ _ _ H).
      destruct (castObjToDeployment o); [|by intros [= ->]].
      destruct (CurrentDeployments c); discriminate.
    + rewrite (syncDeployment_absent _ _ _ H). discriminate.
Qed.

(** The key the handlers compute for a namespaced deployment. *)
Lemma MetaNamespaceKeyFunc_namespaced d :
  Namespace (meta d) ≠ "" ->
  cache.MetaNamespaceKeyFunc (ODeployment d)
  = inl (GetNamespace d +:+ "/" +:+ GetName d).
Proof.
  intros Hns. unfold cache.MetaNamespaceKeyFunc, Accessor.
  by rewrite decide_False.
Qed.

(** C10. Whenever [syncDeployment] returns a non-nil error (the store
    lookup failed, or the stored object is not a Deployment), the
    controller, and with it the [CurrentDeployments] map, is exactly as
    before, and no call on the queue or the error sink was made: both
    error exits come before any write or delete. *)
Theorem syncDeployment_error_leaves_map (key : string) (c : Controller) (e : error) :
  out (syncDeployment key c) = Returned (Some e) ->
  st (syncDeployment key c) = c ∧
  CurrentDeployments (st (syncDeployment key c)) = CurrentDeployments c ∧
  calls (syncDeployment key c) = [].
Proof.
  destruct (cache.GetByKey (Indexer c) key) as [[o ex] [err|]] eqn:H.
  - by rewrite (syncDeployment_lookup_error _ _ _ _ _ H).
  - destruct ex.
    + rewrite (syncDeployment_present _ _ _ H).
      destruct (castObjToDeployment o); [|done].
      destruct (CurrentDeployments c); discriminate.
    + rewrite (syncDeployment_absent _ _ _ H). discriminate.
Qed.

(** ** handleErr *)

Lemma handleErr_nil key c :
  handleErr None key c
  = mkRes (Returned ()) (with_queue (workqueue.Forget key (queue c)) c)
          [CForget key].
Proof. done. Qed.

Lemma handleErr_requeue e key c :
  workqueue.NumRequeues key (queue c) < 5 ->
  handleErr (Some e) key c
  = mkRes (Returned ())
          (with_queue (workqueue.AddRateLimited key (queue c)) c)
          [CNumRequeues key (workqueue.NumRequeues key (queue c));
           CAddRateLimited key].
Proof.
  intros H. unfold handleErr, mbind, M_bind, bind, queue_NumRequeues.
  by rewrite decide_True.
Qed.

Lemma handleErr_give_up e key c :
  5 ≤ workqueue.NumRequeues key (queue c) ->
  handleErr (Some e) key c
  = mkRes (Returned ())
          (with_queue (workqueue.Forget key (queue c)) c)
          [CNumRequeues key (workqueue.NumRequeues key (queue c));
           CForget key; CHandleError e].
Proof.
  intros H. unfold handleErr, mbind, M_bind, bind, queue_NumRequeues.
  rewrite decide_False by lia. done.
Qed.

(** The retry policy always returns; it touches nothing but the queue
    and calls neither [Get] nor [Done]. *)
Lemma handleErr_ends err key c :
  out (handleErr err key c) = Returned () ∧
  List.filter is_Done (calls (handleErr err key c)) = [] ∧
  List.filter is_Get (calls (handleErr err key c)) = [] ∧
  Indexer (st (handleErr err key c)) = Indexer c ∧
  CurrentDeployments (st (handleErr err key c)) = CurrentDeployments c.
Proof.
  destruct err as [e|]; [|by rewrite handleErr_nil].
  destruct (decide (workqueue.NumRequeues key (queue c) < 5)).
  - by rewrite handleErr_requeue.
  - by rewrite handleErr_give_up by lia.
Qed.

(** ** processNextItem *)

(** The reconciliation of a key followed by the retry policy. *)
Lemma reconcile_eq key c :
  (err ← syncDeployment key; handleErr err key;; mret true) c
  = match out (syncDeployment key c) with
    | Returned err =>
      mkRes (Returned true)
            (st (handleErr err key (st (syncDeployment key c))))
            (calls (handleErr err key (st (syncDeployment key c))))
    | Panicked msg => mkRes (Panicked msg) (st (syncDeployment key c)) []
    | Blocked => mkRes Blocked (st (syncDeployment key c)) []
    | Crashed msg => mkRes (Crashed msg) (st (syncDeployment key c)) []
    end.
Proof.
  rewrite mbind_eq, bind_eq.
  destruct (syncDeployment_ends key c) as [-> _].
  destruct (out (syncDeployment key c)) as [err|msg| |msg]; try done.
  rewrite mbind_eq, bind_eq.
  destruct (handleErr_ends err key (st (syncDeployment key c))) as [-> _].
  cbn. by rewrite app_nil_r.
Qed.

(** It either returns true or panics, and calls neither [Get] nor
    [Done]. *)
Lemma reconcile_ends key c :
  ((exists err, out (syncDeployment key c) = Returned err ∧
      out ((err ← syncDeployment key; handleErr err key;; mret true) c)
        = Returned true)
   ∨ exists msg,
       out (syncDeployment key c) = Panicked msg ∧
       out ((err ← syncDeployment key; handleErr err key;; mret true) c)
         = Panicked msg) ∧
  List.filter is_Done
    (calls ((err ← syncDeployment key; handleErr err key;; mret true) c)) = [] ∧
  List.filter is_Get
    (calls ((err ← syncDeployment key; handleErr err key;; mret true) c)) = [].
Proof.
  rewrite reconcile_eq.
  destruct (syncDeployment_ends key c) as [_ [[err H]|[msg H]]]; rewrite H.
  - destruct (handleErr_ends err key (st (syncDeployment key c)))
      as (_ & Hd & Hg & _).
    cbn [out calls]. split; [left; eauto|done].
  - cbn [out calls]. split; [right; eauto|done].
Qed.

Lemma processNextItem_quit c k q :
  workqueue.Get (queue c) = Some (k, true, q) ->
  processNextItem c = mkRes (Returned false) (with_queue q c) [CGet k true].
Proof.
  intros H. unfold processNextItem. rewrite mbind_eq.
  unfold bind, queue_Get. by rewrite H.
Qed.

Lemma processNextItem_blocked c :
  workqueue.Get (queue c) = None ->
  processNextItem c = mkRes Blocked c [].
Proof.
  intros H. unfold processNextItem. rewrite mbind_eq.
  unfold bind, queue_Get. by rewrite H.
Qed.

(** What the worker step does once [Get] has handed it a key: the
    deferred [Done] closes the step whether the reconciliation returned
    or panicked. *)
Lemma processNextItem_key c key q :
  workqueue.Get (queue c) = Some (key, false, q) ->
  processNextItem c
  = mkRes
      (out ((err ← syncDeployment key; handleErr err key;; mret true)
              (with_queue q c)))
      (with_queue
         (workqueue.Done key
            (queue (st ((err ← syncDeployment key; handleErr err key;; mret true)
                          (with_queue q c)))))
         (st ((err ← syncDeployment key; handleErr err key;; mret true)
                (with_queue q c))))
      (CGet key false
         :: calls ((err ← syncDeployment key; handleErr err key;; mret true)
                     (with_queue q c))
         ++ [CDone key]).
Proof.
  intros H.
  assert (E : processNextItem c
              = match defer (queue_Done key)
                        (err ← syncDeployment key; handleErr err key;; mret true)
                        (with_queue q c) with
                | mkRes o c2 l2 => mkRes o c2 ([CGet key false] ++ l2)
                end).
  { unfold processNextItem. rewrite mbind_eq. unfold bind at 1.
    unfold queue_Get. by rewrite H. }
  rewrite E. clear E. rewrite defer_Done_eq; [done|].
  destruct (reconcile_ends key (with_queue q c))
    as [[(? & _ & ->)|(? & _ & ->)] _]; eauto.
Qed.

(** A worker step on a key whose store lookup fails: the error goes
    straight to the retry policy. *)
Lemma processNextItem_failing e key q c :
  workqueue.Get (queue c) = Some (key, false, q) ->
  (cache.GetByKey (Indexer c) key).2 = Some e ->
  processNextItem c
  = mkRes (Returned true)
      (with_queue
         (workqueue.Done key
            (queue (st (handleErr (Some e) key (with_queue q c)))))
         (st (handleErr (Some e) key (with_queue q c))))
      (CGet key false :: calls (handleErr (Some e) key (with_queue q c))
         ++ [CDone key]).
Proof.
  intros Hget Herr. rewrite (processNextItem_key c key q Hget).
  rewrite reconcile_eq.
  destruct (cache.GetByKey (Indexer c) key) as [[o ex] err] eqn:Hidx.
  cbn [snd] in Herr. subst err.
  by rewrite (syncDeployment_lookup_error key (with_queue q c) o ex e Hidx).
Qed.

Lemma entry_delete key c :
  entry key (with_deployments (delete key <$> CurrentDeployments c) c) = None.
Proof.
  unfold entry. wq. destruct (CurrentDeployments c); [|done].
  apply lookup_delete_eq.
Qed.

(** C4. A key that the Local Cache does not hold at processing time
    (whether or not it was ever added) is handed to the deletion path,
    which returns no error; afterwards [CurrentDeployments] has no entry
    for the key.  The worker step that delivered the key forgets it and
    releases it. *)
Theorem absent_key_takes_deletion_path (key : string) (c : Controller) (o : obj) :
  cache.GetByKey (Indexer c) key = (o, false, None) ->
  syncDeployment key c = deleteDeplotment key c ∧
  out (syncDeployment key c) = Returned None ∧
  entry key (st (syncDeployment key c)) = None ∧
  (forall q, workqueue.Get (queue c) = Some (key, false, q) ->
     out (processNextItem c) = Returned true ∧
     calls (processNextItem c) = [CGet key false; CForget key; CDone key] ∧
     entry key (st (processNextItem c)) = None).
Proof.
  intros H. split; [by eapply syncDeployment_absent|].
  rewrite (syncDeployment_absent _ _ _ H).
  split; [done|]. split; [apply entry_delete|].
  intros q Hq. rewrite (processNextItem_key c key q Hq), reconcile_eq.
  rewrite (syncDeployment_absent key (with_queue q c) o H).
  unfold deleteDeplotment. wq. rewrite handleErr_nil. wq.
  split; [done|]. split; [done|].
  unfold entry. wq. destruct (CurrentDeployments c); [|done].
  apply lookup_delete_eq.
Qed.

(** C9. For a deployment with a non-empty namespace the map key under
    which [syncDeployment] stores the snapshot, namespace/name, is the
    key the event handlers compute and enqueue.  With a view that is not
    nil the reconciliation of the stored deployment succeeds and leaves
    the snapshot under that key; [deleteDeplotment] called with the queue
    key then removes exactly that entry: the key has no entry, and the
    map is the one before the sync without the key. *)
Theorem store_key_is_queue_key (d : Deployment) :
  Namespace (meta d) ≠ "" ->
  cache.MetaNamespaceKeyFunc (ODeployment d)
    = inl (GetNamespace d +:+ "/" +:+ GetName d) ∧
  cache.DeletionHandlingMetaNamespaceKeyFunc (ODeployment d)
    = inl (GetNamespace d +:+ "/" +:+ GetName d) ∧
  forall (c : Controller) (key qkey : string) (m : gmap string Deployment),
    cache.MetaNamespaceKeyFunc (ODeployment d) = inl qkey ->
    cache.GetByKey (Indexer c) key = (ODeployment d, true, None) ->
    CurrentDeployments c = Some m ->
    calls (AddFunc (ODeployment d) c) = [CAdd qkey] ∧
    (forall old, calls (UpdateFunc old (ODeployment d) c) = [CAdd qkey]) ∧
    calls (DeleteFunc (ODeployment d) c) = [CAdd qkey] ∧
    out (syncDeployment key c) = Returned None ∧
    CurrentDeployments (st (syncDeployment key c)) = Some (<[qkey := d]> m) ∧
    entry qkey (st (syncDeployment key c)) = Some d ∧
    out (deleteDeplotment qkey (st (syncDeployment key c))) = Returned None ∧
    entry qkey (st (deleteDeplotment qkey (st (syncDeployment key c)))) = None ∧
    CurrentDeployments (st (deleteDeplotment qkey (st (syncDeployment key c))))
      = Some (delete qkey m) ∧
    (forall k', k' ≠ qkey ->
       entry k' (st (deleteDeplotment qkey (st (syncDeployment key c))))
       = entry k' c).
Proof.
  intros Hns.
  assert (Hk := MetaNamespaceKeyFunc_namespaced d Hns).
  split; [done|]. split; [done|].
  intros c key qkey m Hq Hget Hm.
  rewrite Hk in Hq. injection Hq as <-.
  unfold AddFunc, UpdateFunc, DeleteFunc.
  change (cache.DeletionHandlingMetaNamespaceKeyFunc (ODeployment d))
    with (cache.MetaNamespaceKeyFunc (ODeployment d)).
  rewrite Hk.
  rewrite (syncDeployment_present key c _ Hget).
  cbn [castObjToDeployment]. rewrite Hm. unfold entry, deleteDeplotment.
  wq. rewrite Hm. cbn [fmap option_fmap option_map].
  split; [done|]. split; [done|]. split; [done|].
  split; [done|]. split; [done|].
  split; [by rewrite lookup_insert_eq|].
  split; [done|].
  split; [by rewrite lookup_delete_eq|].
  split; [by rewrite delete_insert_eq|].
  intros k' Hne. rewrite lookup_delete_ne by done. by rewrite lookup_insert_ne.
Qed.

(** C7. Each of the three event handlers hands the queue the computed
    key and nothing else: its whole effect is [queue.Add key], whatever
    the payload (for a tombstone, the key it carries), so two payloads
    with the same key leave the controller in the same state.  For every
    key a worker is handed, from any controller state, the resource state
    the reconciliation works on is what the point lookup
    [Indexer.GetByKey] returns for that key when the step runs: the step
    is a function of the controller at that time, and the snapshot it
    records is the stored one. *)
Theorem reconcile_reads_the_cache (c : Controller) (payload other : obj) (key : string) :
  cache.MetaNamespaceKeyFunc payload = inl key ->
  cache.MetaNamespaceKeyFunc other = inl key ->
  AddFunc payload c
    = mkRes (Returned ()) (with_queue (workqueue.Add key (queue c)) c) [CAdd key] ∧
  (forall old,
     UpdateFunc old payload c
     = mkRes (Returned ()) (with_queue (workqueue.Add key (queue c)) c)
         [CAdd key]) ∧
  DeleteFunc payload c
    = mkRes (Returned ()) (with_queue (workqueue.Add key (queue c)) c) [CAdd key] ∧
  (forall last,
     DeleteFunc (ODeletedFinalStateUnknown key last) c
     = mkRes (Returned ()) (with_queue (workqueue.Add key (queue c)) c)
         [CAdd key]) ∧
  AddFunc payload c = AddFunc other c ∧
  (forall old old', UpdateFunc old payload c = UpdateFunc old' other c) ∧
  DeleteFunc payload c = DeleteFunc other c ∧
  (forall (c' : Controller) (d : Deployment) (q : workqueue.t)
          (m : gmap string Deployment),
     workqueue.Get (queue c') = Some (key, false, q) ->
     cache.GetByKey (Indexer c') key = (ODeployment d, true, None) ->
     CurrentDeployments c' = Some m ->
     out (processNextItem c') = Returned true ∧
     calls (processNextItem c') = [CGet key false; CForget key; CDone key] ∧
     CurrentDeployments (st (processNextItem c'))
       = Some (<[GetNamespace d +:+ "/" +:+ GetName d := d]> m)) ∧
  (forall (c' : Controller) (q : workqueue.t),
     workqueue.Get (queue c') = Some (key, false, q) ->
     out (processNextItem c')
     = out ((err ← syncDeployment key; handleErr err key;; mret true)
              (with_queue q c')) ∧
     st (processNextItem c')
     = with_queue
         (workqueue.Done key
            (queue (st ((err ← syncDeployment key; handleErr err key;; mret true)
                          (with_queue q c')))))
         (st ((err ← syncDeployment key; handleErr err key;; mret true)
                (with_queue q c')))) ∧
  (forall (d : Deployment) (q : workqueue.t) (m : gmap string Deployment),
     workqueue.Get (queue (st (AddFunc payload c))) = Some (key, false, q) ->
     cache.GetByKey (Indexer c) key = (ODeployment d, true, None) ->
     CurrentDeployments c = Some m ->
     CurrentDeployments (st (processNextItem (st (AddFunc payload c))))
       = Some (<[GetNamespace d +:+ "/" +:+ GetName d := d]> m) ∧
     (forall old,
        CurrentDeployments
          (st (processNextItem (st (UpdateFunc old payload c))))
        = Some (<[GetNamespace d +:+ "/" +:+ GetName d := d]> m)) ∧
     CurrentDeployments (st (processNextItem (st (DeleteFunc payload c))))
       = Some (<[GetNamespace d +:+ "/" +:+ GetName d := d]> m)).
Proof.
  intros Hp Ho.
  assert (Hdel : forall o, cache.MetaNamespaceKeyFunc o = inl key ->
                           cache.DeletionHandlingMetaNamespaceKeyFunc o = inl key).
  { intros o Hk. destruct o; try exact Hk. discriminate Hk. }
  assert (Ea : forall o, cache.MetaNamespaceKeyFunc o = inl key ->
                         AddFunc o = queue_Add key)
    by (intros o Hk; unfold AddFunc; by rewrite Hk).
  assert (Eu : forall old o, cache.MetaNamespaceKeyFunc o = inl key ->
                             UpdateFunc old o = queue_Add key)
    by (intros old o Hk; unfold UpdateFunc; by rewrite Hk).
  assert (Ed : forall o, cache.MetaNamespaceKeyFunc o = inl key ->
                         DeleteFunc o = queue_Add key)
    by (intros o Hk; unfold DeleteFunc; by rewrite (Hdel o Hk)).
  assert (Hstep : forall (c' : Controller) (d : Deployment) (q : workqueue.t)
                         (m : gmap string Deployment),
            workqueue.Get (queue c') = Some (key, false, q) ->
            cache.GetByKey (Indexer c') key = (ODeployment d, true, None) ->
            CurrentDeployments c' = Some m ->
            out (processNextItem c') = Returned true ∧
            calls (processNextItem c') = [CGet key false; CForget key; CDone key] ∧
            CurrentDeployments (st (processNextItem c'))
              = Some (<[GetNamespace d +:+ "/" +:+ GetName d := d]> m)).
  { intros c' d q m Hget Hidx Hm.
    rewrite (processNextItem_key c' key q Hget), reconcile_eq.
    rewrite (syncDeployment_present key (with_queue q c') _ Hidx).
    cbn [castObjToDeployment]. wq. rewrite Hm. wq.
    rewrite handleErr_nil. wq. done. }
  rewrite !(Ea _ Hp), !(Ea _ Ho), !(Ed _ Hp), !(Ed _ Ho).
  split; [done|].
  split; [intros old; by rewrite (Eu old _ Hp)|].
  split; [done|]. split; [done|]. split; [done|].
  split; [intros old old'; by rewrite (Eu old _ Hp), (Eu old' _ Ho)|].
  split; [done|].
  split; [exact Hstep|].
  split.
  - intros c' q Hget. by rewrite (processNextItem_key c' key q Hget).
  - intros d q m Hget Hidx Hm.
    assert (H := Hstep (st (queue_Add key c)) d q m Hget Hidx Hm).
    destruct H as (_ & _ & H).
    split; [exact H|]. split; [|exact H].
    intros old. rewrite (Eu old _ Hp). exact H.
Qed.

(** ** castObjToDeployment *)

(** C6, as the code has it.  An object that is not a Deployment fails
    the cast with an error.  None of the three handlers decodes: each
    enqueues the key of any object a key can be computed for.  The cast
    happens in [syncDeployment], on the object the store returns; its
    error is the result of the reconciliation, which leaves the
    controller as it was, and the worker step hands that error to the
    retry policy: the key is requeued, or forgotten and the cast error
    reported. *)
Theorem cast_failure_surfaces_in_syncDeployment (o : obj) :
  (forall d, o ≠ ODeployment d) ->
  (exists msg, castObjToDeployment o = inr msg) ∧
  (forall key c, cache.MetaNamespaceKeyFunc o = inl key ->
     AddFunc o c = queue_Add key c ∧
     (forall old, UpdateFunc old o c = queue_Add key c) ∧
     calls (AddFunc o c) = [CAdd key] ∧
     queue (st (AddFunc o c)) = workqueue.Add key (queue c)) ∧
  (forall key c, cache.DeletionHandlingMetaNamespaceKeyFunc o = inl key ->
     DeleteFunc o c = queue_Add key c ∧
     calls (DeleteFunc o c) = [CAdd key] ∧
     queue (st (DeleteFunc o c)) = workqueue.Add key (queue c)) ∧
  (forall key c msg,
     castObjToDeployment o = inr msg ->
     cache.GetByKey (Indexer c) key = (o, true, None) ->
     out (syncDeployment key c) = Returned (Some msg) ∧
     st (syncDeployment key c) = c ∧
     calls (syncDeployment key c) = []) ∧
  (forall key c q msg,
     castObjToDeployment o = inr msg ->
     cache.GetByKey (Indexer c) key = (o, true, None) ->
     workqueue.Get (queue c) = Some (key, false, q) ->
     out (processNextItem c) = Returned true ∧
     calls (processNextItem c)
       = CGet key false :: calls (handleErr (Some msg) key (with_queue q c))
           ++ [CDone key] ∧
     CurrentDeployments (st (processNextItem c)) = CurrentDeployments c ∧
     (workqueue.NumRequeues key (queue c) < 5 ->
      calls (processNextItem c)
        = [CGet key false;
           CNumRequeues key (workqueue.NumRequeues key (queue c));
           CAddRateLimited key; CDone key]) ∧
     (5 ≤ workqueue.NumRequeues key (queue c) ->
      calls (processNextItem c)
        = [CGet key false;
           CNumRequeues key (workqueue.NumRequeues key (queue c));
           CForget key; CHandleError msg; CDone key])).
Proof.
  intros Hnd. split; [|split; [|split; [|split]]].
  - destruct o; cbn; eauto. by destruct (Hnd d).
  - intros key c Hk. unfold AddFunc, UpdateFunc. by rewrite Hk.
  - intros key c Hk. unfold DeleteFunc. by rewrite Hk.
  - intros key c msg Hc Hget.
    by rewrite (syncDeployment_present key c o Hget), Hc.
  - intros key c q msg Hc Hidx Hget.
    assert (Hn : workqueue.NumRequeues key q
                 = workqueue.NumRequeues key (queue c)).
    { unfold workqueue.Get in Hget.
      destruct (workqueue.queue (queue c)) as [|k rest];
        [destruct (workqueue.shuttingDown (queue c)); discriminate|].
      by injection Hget as _ <-. }
    rewrite (processNextItem_key c key q Hget), reconcile_eq.
    rewrite (syncDeployment_present key (with_queue q c) o Hidx), Hc.
    cbn [out st calls].
    split; [done|]. split; [done|].
    split.
    { destruct (handleErr_ends (Some msg) key (with_queue q c))
        as (_ & _ & _ & _ & Hcd).
      exact Hcd. }
    split; intros H.
    + rewrite handleErr_requeue by (rewrite with_queue_queue, Hn; exact H).
      cbn [calls app]. by rewrite with_queue_queue, Hn.
    + rewrite handleErr_give_up by (rewrite with_queue_queue, Hn; exact H).
      cbn [calls app]. by rewrite with_queue_queue, Hn.
Qed.

(** C6, counterexample to the claim as worded.  A ReplicaSet shaped
    object sits in the store under ns/a: the add handler enqueues its
    key, and the reconciliation of that key returns the cast error. *)
Lemma cast_failure_not_at_watcher_boundary :
  calls (AddFunc (OOther "ReplicaSet" (mkMeta "ns" "a" "u-1" "7"))
           (NewController
              (cache.storeIndexer
                 {["ns/a" := OOther "ReplicaSet" (mkMeta "ns" "a" "u-1" "7")]})))
    = [CAdd "ns/a"] ∧
  out (syncDeployment "ns/a"
         (NewController
            (cache.storeIndexer
               {["ns/a" := OOther "ReplicaSet" (mkMeta "ns" "a" "u-1" "7")]})))
    = Returned (Some "could not cast obj ns/a (uid: u-1) to deployment") ∧
  ¬ decoded_at_watcher_boundary.
Proof.
  split; [done|]. split; [vm_compute; done|].
  intros H.
  destruct (H (OOther "ReplicaSet" (mkMeta "ns" "a" "u-1" "7"))
              (NewController (cache.storeIndexer ∅))
              "could not cast obj ns/a (uid: u-1) to deployment"
              eq_refl) as [Hcalls _].
  discriminate Hcalls.
Qed.

(** ** The worker step and the worker loop *)

(** C3. In every execution of the worker step, a [Get] that hands out a
    key is followed by exactly one [Done], for that key and as the last
    call of the step, on every exit path: the reconciliation succeeded,
    returned an error, or panicked.  The step itself always ends, and the
    key is no longer marked in flight.  A [Get] that reports the shutdown
    signal, or that stays blocked, is followed by no [Done]. *)
Theorem Done_once_per_Get (c : Controller) :
  (forall key q,
     workqueue.Get (queue c) = Some (key, false, q) ->
     (exists mid, calls (processNextItem c) = CGet key false :: mid ++ [CDone key]) ∧
     List.filter is_Done (calls (processNextItem c)) = [CDone key] ∧
     List.filter is_Get (calls (processNextItem c)) = [CGet key false] ∧
     ((exists err, out (syncDeployment key (with_queue q c)) = Returned err ∧
                   out (processNextItem c) = Returned true)
      ∨ exists msg, out (syncDeployment key (with_queue q c)) = Panicked msg ∧
                    out (processNextItem c) = Panicked msg) ∧
     ¬ (key ∈ workqueue.processing (queue (st (processNextItem c))))) ∧
  (forall k q,
     workqueue.Get (queue c) = Some (k, true, q) ->
     List.filter is_Done (calls (processNextItem c)) = []) ∧
  (workqueue.Get (queue c) = None ->
     calls (processNextItem c) = []).
Proof.
  split; [|split].
  - intros key q H. rewrite (processNextItem_key c key q H).
    destruct (reconcile_ends key (with_queue q c)) as (Hends & Hdone & Hget).
    cbn [out st calls].
    split; [eauto|].
    split; [cbn [List.filter is_Done]; by rewrite List.filter_app, Hdone|].
    split; [cbn [List.filter is_Get]; by rewrite List.filter_app, Hget|].
    split; [done|].
    rewrite with_queue_queue. unfold workqueue.Done. wq.
    rewrite elem_of_difference.
    intros [_ Hn]. apply Hn. by apply elem_of_singleton.
  - intros k q H. by rewrite (processNextItem_quit c k q H).
  - intros H. by rewrite (processNextItem_blocked c H).
Qed.

(** The three exit paths of the step exist: a stored deployment, a
    failing store lookup, and a write into a nil map. *)
Example Done_after_success :
  (λ r, (out r, calls r))
    (processNextItem
       (st (AddFunc (ODeployment (mkDeployment (mkMeta "ns" "a" "u" "1") 3))
              (NewController
                 (cache.storeIndexer
                    {["ns/a" := ODeployment (mkDeployment (mkMeta "ns" "a" "u" "1") 3)]})))))
  = (Returned true, [CGet "ns/a" false; CForget "ns/a"; CDone "ns/a"]).
Proof. vm_compute. reflexivity. Qed.

Example Done_after_error :
  (λ r, (out r, calls r))
    (processNextItem
       (st (AddFunc (ODeployment (mkDeployment (mkMeta "ns" "a" "u" "1") 3))
              (NewController
                 (cache.mkIndexer (λ _, (ONil, false, Some "store unavailable")))))))
  = (Returned true,
     [CGet "ns/a" false; CNumRequeues "ns/a" 0; CAddRateLimited "ns/a";
      CDone "ns/a"]).
Proof. vm_compute. reflexivity. Qed.

Example Done_after_panic :
  (λ r, (out r, calls r))
    (processNextItem
       (with_deployments None
          (st (AddFunc (ODeployment (mkDeployment (mkMeta "ns" "a" "u" "1") 3))
                 (NewController
                    (cache.storeIndexer
                       {["ns/a" := ODeployment (mkDeployment (mkMeta "ns" "a" "u" "1") 3)]}))))))
  = (Panicked "assignment to entry in nil map",
     [CGet "ns/a" false; CDone "ns/a"]).
Proof. vm_compute. reflexivity. Qed.

Lemma processNextItem_false c :
  out (processNextItem c) = Returned false ->
  exists k q, workqueue.Get (queue c) = Some (k, true, q).
Proof.
  destruct (workqueue.Get (queue c)) as [[[k b] q]|] eqn:H.
  - destruct b; [eauto|].
    rewrite (processNextItem_key c k q H). cbn [out].
    destruct (reconcile_ends k (with_queue q c))
      as [[(? & _ & ->)|(? & _ & ->)] _]; discriminate.
  - rewrite (processNextItem_blocked c H). discriminate.
Qed.

Lemma RunWorker_exit fuel c :
  out (RunWorker fuel c) = Returned true ->
  exists (l : list call) k, calls (RunWorker fuel c) = l ++ [CGet k true].
Proof.
  revert c. induction fuel as [|n IH]; intros c; [discriminate|].
  cbn [RunWorker]. rewrite mbind_eq, bind_eq.
  destruct (out (processNextItem c)) as [[]| | |] eqn:Hp; cbn [out calls];
    try discriminate.
  - intros H. destruct (IH _ H) as (l & k & Hl).
    exists (calls (processNextItem c) ++ l), k. rewrite Hl. by rewrite app_assoc.
  - intros _. destruct (processNextItem_false c Hp) as (k & q & Hq).
    rewrite (processNextItem_quit c k q Hq). by exists [], k.
Qed.

(** C8. A reconciliation error never ends the worker loop: whenever the
    reconciliation of a delivered key returns, with an error or without,
    the worker step returns true.  The step returns false exactly when
    [Get] reports the shutdown signal, and the loop exits only right
    after such a [Get]; a queue that reports shutdown does end it. *)
Theorem reconcile_error_keeps_worker_running (c : Controller) :
  (forall key q err,
     workqueue.Get (queue c) = Some (key, false, q) ->
     out (syncDeployment key (with_queue q c)) = Returned err ->
     out (processNextItem c) = Returned true) ∧
  (out (processNextItem c) = Returned false
   <-> exists k q, workqueue.Get (queue c) = Some (k, true, q)) ∧
  (forall fuel,
     out (RunWorker fuel c) = Returned true ->
     exists (l : list call) k, calls (RunWorker fuel c) = l ++ [CGet k true]) ∧
  (forall k q fuel,
     workqueue.Get (queue c) = Some (k, true, q) ->
     out (RunWorker (S fuel) c) = Returned true).
Proof.
  split; [|split; [|split]].
  - intros key q err Hget Hsync.
    rewrite (processNextItem_key c key q Hget), reconcile_eq, Hsync. done.
  - split; [apply processNextItem_false|].
    intros (k & q & H). by rewrite (processNextItem_quit c k q H).
  - intros fuel. apply RunWorker_exit.
  - intros k q fuel H. cbn [RunWorker]. rewrite mbind_eq, bind_eq.
    by rewrite (processNextItem_quit c k q H).
Qed.

(** ** The retry policy over consecutive failures *)

Lemma requeues_app (l1 l2 : list call) :
  requeues (l1 ++ l2) = requeues l1 ++ requeues l2.
Proof. apply omap_app. Qed.

Lemma reports_app (l1 l2 : list call) :
  reports (l1 ++ l2) = reports l1 ++ reports l2.
Proof. apply omap_app. Qed.

(** Consecutive failures of one key, starting from [k] requeues. *)
Lemma fail_repeatedly_from e key n : forall k c,
  workqueue.NumRequeues key (queue c) = k ->
  k ≤ 5 -> k + n ≤ 6 ->
  out (fail_repeatedly n e key c) = Returned () ∧
  requeues (calls (fail_repeatedly n e key c))
    = replicate (n `min` (5 - k)) key ∧
  reports (calls (fail_repeatedly n e key c))
    = (if decide (k + n = 6) then [e] else []) ∧
  workqueue.NumRequeues key (queue (st (fail_repeatedly n e key c)))
    = (if decide (k + n = 6) then 0 else k + n).
Proof.
  induction n as [|n IH]; intros k c Hk Hk5 Hkn.
  - rewrite Nat.add_0_r. destruct (decide (k = 6)); [lia|].
    split; [done|]. split; [done|]. split; [done|]. exact Hk.
  - cbn [fail_repeatedly]. rewrite mbind_eq, bind_eq.
    destruct (decide (k < 5)) as [Hlt|Hge].
    + rewrite handleErr_requeue by lia. cbn [out st calls].
      destruct (IH (S k) (with_queue (workqueue.AddRateLimited key (queue c)) c))
        as (Ho & Hr & Hp & Hc); [|lia|lia|].
      { rewrite with_queue_queue, NumRequeues_AddRateLimited. lia. }
      rewrite Ho, requeues_app, reports_app, Hr, Hp, Hc.
      replace (5 - k) with (S (5 - S k)) by lia.
      replace (k + S n) with (S k + n) by lia.
      done.
    + assert (k = 5) as -> by lia. assert (n = 0) as -> by lia.
      rewrite handleErr_give_up by lia. cbn [out st calls fail_repeatedly].
      split; [done|]. split; [done|]. split; [done|].
      cbn [mret M_ret ret st]. rewrite with_queue_queue.
      by rewrite NumRequeues_Forget.
Qed.

(** C2. A nil error makes [handleErr] call [Forget], and only that: the
    retry count of the key is zero afterwards and the queue membership
    (pending, dirty, in flight, waiting) is untouched.  So after any
    number [n] of failures of the key followed by one success, the next
    failure finds a requeue count of 0 and is requeued as a first
    attempt, leaving the count at 1. *)
Theorem success_resets_retry_count (key : string) (c : Controller) :
  out (handleErr None key c) = Returned () ∧
  calls (handleErr None key c) = [CForget key] ∧
  workqueue.NumRequeues key (queue (st (handleErr None key c))) = 0 ∧
  workqueue.queue (queue (st (handleErr None key c))) = workqueue.queue (queue c) ∧
  workqueue.dirty (queue (st (handleErr None key c))) = workqueue.dirty (queue c) ∧
  workqueue.processing (queue (st (handleErr None key c)))
    = workqueue.processing (queue c) ∧
  workqueue.waitingForAdd (queue (st (handleErr None key c)))
    = workqueue.waitingForAdd (queue c) ∧
  forall (n : nat) (e e' : error),
    calls (handleErr (Some e') key
             (st (handleErr None key (st (fail_repeatedly n e key c)))))
      = [CNumRequeues key 0; CAddRateLimited key] ∧
    workqueue.NumRequeues key
      (queue (st (handleErr (Some e') key
                    (st (handleErr None key (st (fail_repeatedly n e key c)))))))
      = 1.
Proof.
  rewrite handleErr_nil. cbn [out st calls].
  split; [done|]. split; [done|].
  split; [rewrite with_queue_queue; apply NumRequeues_Forget|].
  do 4 (split; [done|]).
  intros n e e'. rewrite handleErr_nil. cbn [st].
  rewrite handleErr_requeue;
    rewrite with_queue_queue, NumRequeues_Forget; [|lia].
  cbn [st calls]. split; [done|].
  by rewrite with_queue_queue, NumRequeues_AddRateLimited, NumRequeues_Forget.
Qed.

(** The count a success resets is a real one: failures accumulate. *)
Example retry_count_before_and_after_success :
  workqueue.NumRequeues "ns/a"
    (queue (st (fail_repeatedly 3 "boom" "ns/a"
                  (NewController (cache.storeIndexer ∅))))) = 3 ∧
  workqueue.NumRequeues "ns/a"
    (queue (st (handleErr None "ns/a"
                  (st (fail_repeatedly 3 "boom" "ns/a"
                         (NewController (cache.storeIndexer ∅))))))) = 0.
Proof. split; vm_compute; reflexivity. Qed.

(** ** The retry cycle of a failing key *)

Lemma not_in_difference_self (key : string) (X : gset string) :
  ¬ (key ∈ X ∖ {[key]}).
Proof.
  rewrite elem_of_difference. intros [_ Hn]. apply Hn.
  by apply elem_of_singleton.
Qed.

Lemma attempt_requeue e key k c :
  failing_key e key k c -> k < 5 ->
  out (processNextItem c) = Returned true ∧
  calls (processNextItem c)
    = [CGet key false; CNumRequeues key k; CAddRateLimited key; CDone key] ∧
  failing_key e key (S k) (st (timer_fires (st (processNextItem c)))).
Proof.
  intros (Hq & Hw & Hs & Hpr & Hn & Herr) Hk.
  rewrite (processNextItem_failing e key _ c (Get_head key [] _ Hq) Herr).
  rewrite handleErr_requeue
    by (rewrite with_queue_queue; exact (eq_ind_r (λ n, n < 5) Hk Hn)).
  cbn [out st calls]. rewrite !with_queue_queue.
  split; [done|]. split.
  { change (workqueue.NumRequeues key _) with (workqueue.NumRequeues key (queue c)).
    by rewrite Hn. }
  unfold failing_key, timer_fires. wq.
  unfold workqueue.fire, workqueue.Done, workqueue.AddRateLimited. wq.
  rewrite Hs, Hw. wq.
  rewrite (decide_False (P := key ∈ workqueue.dirty (queue c) ∖ {[key]}))
    by apply not_in_difference_self.
  unfold workqueue.Add. wq.
  rewrite (decide_False (P := key ∈ workqueue.dirty (queue c) ∖ {[key]}))
    by apply not_in_difference_self.
  rewrite (decide_False
             (P := key ∈ ({[key]} ∪ workqueue.processing (queue c)) ∖ {[key]}))
    by apply not_in_difference_self.
  wq. split; [done|]. split; [done|]. split; [done|].
  split; [apply not_in_difference_self|]. split; [|done].
  unfold workqueue.NumRequeues. wq. rewrite lookup_insert_eq.
  unfold workqueue.NumRequeues in Hn. by rewrite Hn.
Qed.

Lemma attempt_give_up e key c :
  failing_key e key 5 c ->
  out (processNextItem c) = Returned true ∧
  calls (processNextItem c)
    = [CGet key false; CNumRequeues key 5; CForget key; CHandleError e;
       CDone key] ∧
  idle (st (timer_fires (st (processNextItem c)))).
Proof.
  intros (Hq & Hw & Hs & Hpr & Hn & Herr).
  rewrite (processNextItem_failing e key _ c (Get_head key [] _ Hq) Herr).
  rewrite handleErr_give_up
    by (rewrite with_queue_queue; exact (eq_ind_r (λ n, 5 ≤ n) (le_n 5) Hn)).
  cbn [out st calls]. rewrite !with_queue_queue.
  split; [done|]. split.
  { change (workqueue.NumRequeues key _) with (workqueue.NumRequeues key (queue c)).
    by rewrite Hn. }
  unfold idle, timer_fires. wq.
  unfold workqueue.fire, workqueue.Done, workqueue.Forget. wq.
  rewrite Hw, Hs.
  rewrite (decide_False (P := key ∈ workqueue.dirty (queue c) ∖ {[key]}))
    by apply not_in_difference_self.
  done.
Qed.

Lemma idle_attempts n c :
  idle c -> calls (attempts n c) = [].
Proof.
  intros (Hq & Hw & Hs). destruct n as [|n]; [done|].
  cbn [attempts]. rewrite mbind_eq, bind_eq.
  rewrite processNextItem_blocked; [done|].
  unfold workqueue.Get. by rewrite Hq, Hs.
Qed.

Lemma attempts_from e key n : forall k c,
  failing_key e key k c -> k ≤ 5 ->
  requeues (calls (attempts n c)) = replicate (n `min` (5 - k)) key ∧
  reports (calls (attempts n c)) = (if decide (n ≤ 5 - k) then [] else [e]).
Proof.
  induction n as [|n IH]; intros k c Hf Hk; [done|].
  cbn [attempts]. rewrite mbind_eq, bind_eq.
  destruct (decide (k < 5)) as [Hlt|Hge].
  - destruct (attempt_requeue e key k c Hf Hlt) as (Ho & Hc & Hf').
    rewrite Ho. cbn [out st calls]. rewrite mbind_eq, bind_eq.
    cbn [out st calls timer_fires].
    destruct (IH (S k) _ Hf') as (Hr & Hp); [lia|].
    change (with_queue _ (st (processNextItem c)))
      with (st (timer_fires (st (processNextItem c)))).
    rewrite !requeues_app, !reports_app, Hc, Hr, Hp.
    replace (5 - k) with (S (5 - S k)) by lia.
    split; [done|].
    destruct (decide (n ≤ 5 - S k)), (decide (S n ≤ S (5 - S k)));
      try done; lia.
  - assert (k = 5) as -> by lia.
    destruct (attempt_give_up e key c Hf) as (Ho & Hc & Hi).
    rewrite Ho. cbn [out st calls]. rewrite mbind_eq, bind_eq.
    cbn [out st calls timer_fires].
    change (with_queue _ (st (processNextItem c)))
      with (st (timer_fires (st (processNextItem c)))).
    rewrite (idle_attempts n _ Hi), Hc. done.
Qed.

(** C1. For a key whose reconciliation returned an error, [handleErr]
    requeues the key with [AddRateLimited] when its requeue count is
    below five, and otherwise calls [Forget] and hands the error to the
    error sink; one of the two always happens.  Hence a key that fails on
    every attempt, starting from a count of zero, is requeued exactly 5
    times: the 6th failure in a row is reported and not requeued.  The
    same holds for the worker itself when the key runs through the queue
    and its backoff timer, however many further steps follow. *)
Theorem retry_policy (e : error) (key : string) (c : Controller) :
  out (handleErr (Some e) key c) = Returned () ∧
  (workqueue.NumRequeues key (queue c) < 5 ->
   calls (handleErr (Some e) key c)
     = [CNumRequeues key (workqueue.NumRequeues key (queue c));
        CAddRateLimited key] ∧
   queue (st (handleErr (Some e) key c))
     = workqueue.AddRateLimited key (queue c)) ∧
  (5 ≤ workqueue.NumRequeues key (queue c) ->
   calls (handleErr (Some e) key c)
     = [CNumRequeues key (workqueue.NumRequeues key (queue c));
        CForget key; CHandleError e] ∧
   queue (st (handleErr (Some e) key c)) = workqueue.Forget key (queue c)) ∧
  (requeues (calls (handleErr (Some e) key c)) = [key]
   ∧ reports (calls (handleErr (Some e) key c)) = []
   ∨ requeues (calls (handleErr (Some e) key c)) = []
     ∧ reports (calls (handleErr (Some e) key c)) = [e]) ∧
  (workqueue.NumRequeues key (queue c) = 0 ->
   forall n, n ≤ 6 ->
     requeues (calls (fail_repeatedly n e key c)) = replicate (n `min` 5) key ∧
     reports (calls (fail_repeatedly n e key c))
       = (if decide (n = 6) then [e] else [])) ∧
  (failing_key e key 0 c ->
   forall n,
     requeues (calls (attempts n c)) = replicate (n `min` 5) key ∧
     reports (calls (attempts n c)) = (if decide (n ≤ 5) then [] else [e])).
Proof.
  split; [|split; [|split; [|split; [|split]]]].
  - apply handleErr_ends.
  - intros H. by rewrite handleErr_requeue.
  - intros H. by rewrite handleErr_give_up.
  - destruct (decide (workqueue.NumRequeues key (queue c) < 5)).
    + left. by rewrite handleErr_requeue.
    + right. by rewrite handleErr_give_up by lia.
  - intros H0 n Hn.
    destruct (fail_repeatedly_from e key n 0 c H0) as (_ & Hr & Hp & _);
      [lia|lia|].
    by rewrite Hr, Hp.
  - intros Hf n.
    destruct (attempts_from e key n 0 c Hf) as (Hr & Hp); [lia|].
    by rewrite Hr, Hp.
Qed.

(** ** Run *)




Ltac run_Run :=
  unfold Run, defer_HandleCrash, defer, go, WaitForCacheSync, HandleError,
    queue_ShutDown, mbind, M_bind, bind, mret, M_ret, ret.








(** ** The properties on the sample controllers *)

Lemma retry_policy_sample :
  requeues (calls (attempts 9 sample_failing)) = replicate 5 "ns/a" ∧
  reports (calls (attempts 9 sample_failing)) = ["store unavailable"].
Proof.
  destruct (retry_policy "store unavailable" "ns/a" sample_failing)
    as (_ & _ & _ & _ & _ & H).
  apply (H ltac:(repeat split; try (vm_compute; reflexivity);
                 apply not_elem_of_empty) 9).
Defined.

Lemma syncDeployment_error_leaves_map_sample :
  st (syncDeployment "ns/a" sample_failing) = sample_failing ∧
  CurrentDeployments (st (syncDeployment "ns/a" sample_failing))
    = CurrentDeployments sample_failing ∧
  calls (syncDeployment "ns/a" sample_failing) = [].
Proof.
  apply (syncDeployment_error_leaves_map "ns/a" sample_failing
           "store unavailable").
  vm_compute. reflexivity.
Defined.

Lemma absent_key_takes_deletion_path_sample :
  out (syncDeployment "ns/a" sample_deleted) = Returned None ∧
  entry "ns/a" (st (syncDeployment "ns/a" sample_deleted)) = None.
Proof.
  destruct (absent_key_takes_deletion_path "ns/a" sample_deleted ONil)
    as (_ & H1 & H2 & _); [vm_compute; reflexivity|].
  by split.
Defined.

Lemma store_key_is_queue_key_sample :
  calls (AddFunc (ODeployment sample_deployment) sample_synced) = [CAdd "ns/a"] ∧
  entry "ns/a" (st (syncDeployment "ns/a" sample_synced))
    = Some sample_deployment ∧
  entry "ns/a"
    (st (deleteDeplotment "ns/a" (st (syncDeployment "ns/a" sample_synced))))
    = None ∧
  CurrentDeployments
    (st (deleteDeplotment "ns/a" (st (syncDeployment "ns/a" sample_synced))))
    = Some (delete "ns/a" ∅).
Proof.
  destruct (store_key_is_queue_key sample_deployment) as (_ & _ & H).
  { intros E. discriminate E. }
  destruct (H sample_synced "ns/a" "ns/a" ∅)
    as (Ha & _ & _ & _ & _ & Hs & _ & Hd & Hm & _).
  - vm_compute. reflexivity.
  - vm_compute. reflexivity.
  - reflexivity.
  - repeat split; assumption.
Defined.

Lemma reconcile_reads_the_cache_sample :
  CurrentDeployments
    (st (processNextItem
           (st (UpdateFunc (ODeployment stale_deployment)
                  (ODeployment stale_deployment)
                  (NewController
                     (cache.storeIndexer
                        {["ns/a" := ODeployment sample_deployment]}))))))
  = Some {["ns/a" := sample_deployment]}.
Proof.
  destruct (reconcile_reads_the_cache
              (NewController
                 (cache.storeIndexer {["ns/a" := ODeployment sample_deployment]}))
              (ODeployment stale_deployment) (ODeployment sample_deployment)
              "ns/a")
    as (_ & _ & _ & _ & _ & _ & _ & _ & _ & H).
  - vm_compute. reflexivity.
  - vm_compute. reflexivity.
  - destruct (H sample_deployment
                {| workqueue.queue := [];
                   workqueue.dirty := ({["ns/a"]} ∪ ∅) ∖ {["ns/a"]};
                   workqueue.processing := {["ns/a"]} ∪ ∅;
                   workqueue.shuttingDown := false;
                   workqueue.failures := ∅;
                   workqueue.waitingForAdd := [] |} ∅)
      as (_ & Hu & _).
    + vm_compute. reflexivity.
    + vm_compute. reflexivity.
    + reflexivity.
    + exact (Hu (ODeployment stale_deployment)).
Defined.

Lemma cast_failure_surfaces_in_syncDeployment_sample :
  calls (processNextItem
           (st (AddFunc (OOther "ReplicaSet" (mkMeta "ns" "a" "u-1" "7"))
                  (NewController
                     (cache.storeIndexer
                        {["ns/a" := OOther "ReplicaSet" (mkMeta "ns" "a" "u-1" "7")]})))))
  = [CGet "ns/a" false; CNumRequeues "ns/a" 0; CAddRateLimited "ns/a";
     CDone "ns/a"].
Proof.
  destruct (cast_failure_surfaces_in_syncDeployment
              (OOther "ReplicaSet" (mkMeta "ns" "a" "u-1" "7")))
    as (_ & _ & _ & _ & H).
  { intros d E. discriminate E. }
  destruct (H "ns/a"
              (st (AddFunc (OOther "ReplicaSet" (mkMeta "ns" "a" "u-1" "7"))
                     (NewController
                        (cache.storeIndexer
                           {["ns/a" := OOther "ReplicaSet" (mkMeta "ns" "a" "u-1" "7")]}))))
              {| workqueue.queue := [];
                 workqueue.dirty := ({["ns/a"]} ∪ ∅) ∖ {["ns/a"]};
                 workqueue.processing := {["ns/a"]} ∪ ∅;
                 workqueue.shuttingDown := false;
                 workqueue.failures := ∅;
                 workqueue.waitingForAdd := [] |}
              "could not cast obj ns/a (uid: u-1) to deployment")
    as (_ & _ & _ & Hlt & _).
  - reflexivity.
  - vm_compute. reflexivity.
  - vm_compute. reflexivity.
  - apply Hlt. vm_compute. lia.
Defined.

Lemma Done_once_per_Get_sample :
  List.filter is_Done (calls (processNextItem sample_nil_map)) = [CDone "ns/a"].
Proof.
  refine (proj1 (proj2 (proj1 (Done_once_per_Get sample_nil_map) "ns/a" _ _))).
  vm_compute. reflexivity.
Defined.

Lemma reconcile_error_keeps_worker_running_sample :
  out (processNextItem sample_failing) = Returned true.
Proof.
  refine (proj1 (reconcile_error_keeps_worker_running sample_failing)
            "ns/a" _ (Some "store unavailable") _ _).
  - vm_compute. reflexivity.
  - vm_compute. reflexivity.
Defined.


(** * Further properties of the controller *)

(** A successful reconciliation of a stored deployment records the
    snapshot under namespace/name and touches nothing else: every other
    entry, the queue and the store are as before, and no call is made. *)
Theorem syncDeployment_stores_snapshot (key : string) (c : Controller) (d : Deployment) (m : gmap string Deployment) :
  cache.GetByKey (Indexer c) key = (ODeployment d, true, None) ->
  CurrentDeployments c = Some m ->
  out (syncDeployment key c) = Returned None ∧
  calls (syncDeployment key c) = [] ∧
  entry (GetNamespace d +:+ "/" +:+ GetName d) (st (syncDeployment key c))
    = Some d ∧
  (forall k, k ≠ GetNamespace d +:+ "/" +:+ GetName d ->
     entry k (st (syncDeployment key c)) = entry k c) ∧
  queue (st (syncDeployment key c)) = queue c ∧
  Indexer (st (syncDeployment key c)) = Indexer c.
Proof.
  intros Hget Hm. rewrite (syncDeployment_present key c _ Hget).
  cbn [castObjToDeployment]. rewrite Hm. unfold entry. wq. rewrite Hm.
  split; [done|]. split; [done|].
  split; [apply lookup_insert_eq|].
  split; [|done].
  intros k Hk. by apply lookup_insert_ne.
Qed.

Lemma syncDeployment_stores_snapshot_sample :
  entry "ns/a" (st (syncDeployment "ns/a" sample_synced))
  = Some sample_deployment.
Proof.
  refine (proj1 (proj2 (proj2
            (syncDeployment_stores_snapshot "ns/a" sample_synced
               sample_deployment ∅ _ _)))).
  - vm_compute. reflexivity.
  - reflexivity.
Defined.

(** The view holds the latest snapshot only: when the store moves on to
    a newer version of the same resource and the key is reconciled again,
    the map is what a single reconciliation of the newer version would
    have given. *)
Theorem syncDeployment_last_write_wins (key : string) (c : Controller) (i2 : cache.Indexer) (d1 d2 : Deployment) (m : gmap string Deployment) :
  cache.GetByKey (Indexer c) key = (ODeployment d1, true, None) ->
  cache.GetByKey i2 key = (ODeployment d2, true, None) ->
  GetNamespace d1 = GetNamespace d2 ->
  GetName d1 = GetName d2 ->
  CurrentDeployments c = Some m ->
  CurrentDeployments
    (st (syncDeployment key (with_indexer i2 (st (syncDeployment key c)))))
  = CurrentDeployments (st (syncDeployment key (with_indexer i2 c))) ∧
  entry (GetNamespace d2 +:+ "/" +:+ GetName d2)
    (st (syncDeployment key (with_indexer i2 (st (syncDeployment key c)))))
  = Some d2.
Proof.
  intros H1 H2 Hns Hn Hm.
  rewrite (syncDeployment_present key c _ H1). cbn [castObjToDeployment].
  rewrite Hm. cbn [st].
  rewrite (syncDeployment_present key (with_indexer i2 _) _ H2).
  rewrite (syncDeployment_present key (with_indexer i2 c) _ H2).
  cbn [castObjToDeployment]. unfold with_indexer, entry. wq. rewrite Hm. wq.
  rewrite Hns, Hn, insert_insert_eq. split; [done|].
  apply lookup_insert_eq.
Qed.

Lemma syncDeployment_last_write_wins_sample :
  entry "ns/a"
    (st (syncDeployment "ns/a"
           (with_indexer
              (cache.storeIndexer {["ns/a" := ODeployment sample_deployment]})
              (st (syncDeployment "ns/a"
                     (NewController
                        (cache.storeIndexer
                           {["ns/a" := ODeployment stale_deployment]})))))))
  = Some sample_deployment.
Proof.
  refine (proj2 (syncDeployment_last_write_wins "ns/a"
                   (NewController
                      (cache.storeIndexer
                         {["ns/a" := ODeployment stale_deployment]}))
                   (cache.storeIndexer
                      {["ns/a" := ODeployment sample_deployment]})
                   stale_deployment sample_deployment ∅ _ _ _ _ _));
    vm_compute; reflexivity.
Defined.

(** [deleteDeplotment] never fails and makes no call; it removes the
    entry of its key and no other, changes nothing when the key has no
    entry (also on a nil map), and doing it twice is doing it once. *)
Theorem deleteDeplotment_removes_only_key (key : string) (c : Controller) :
  out (deleteDeplotment key c) = Returned None ∧
  calls (deleteDeplotment key c) = [] ∧
  entry key (st (deleteDeplotment key c)) = None ∧
  (forall k, k ≠ key -> entry k (st (deleteDeplotment key c)) = entry k c) ∧
  (entry key c = None -> st (deleteDeplotment key c) = c) ∧
  st (deleteDeplotment key (st (deleteDeplotment key c)))
    = st (deleteDeplotment key c) ∧
  queue (st (deleteDeplotment key c)) = queue c ∧
  Indexer (st (deleteDeplotment key c)) = Indexer c.
Proof.
  unfold deleteDeplotment, entry. wq.
  destruct c as [i q [m|]]; wq; cbn [fmap option_fmap option_map].
  - split; [done|]. split; [done|].
    split; [apply lookup_delete_eq|].
    split; [intros k Hk; by apply lookup_delete_ne|].
    split; [intros H; by rewrite delete_id|].
    split; [by rewrite delete_delete_eq|done].
  - done.
Qed.

Lemma string_cons_ne (a : ascii) (s : string) : String a s ≠ s.
Proof.
  intros H. apply (f_equal String.length) in H. cbn in H. lia.
Qed.

(** The cast succeeds exactly on Deployments and returns the deployment
    it was given.  Every other value yields an error: one that names
    namespace, name and uid when the value carries object metadata, and
    the accessor's error when it does not. *)
Theorem castObjToDeployment_succeeds_iff (o : obj) :
  (forall d, castObjToDeployment o = inl d <-> o = ODeployment d) ∧
  ((forall d, o ≠ ODeployment d) ->
   match Accessor o with
   | inl m =>
     castObjToDeployment o
     = inr ("could not cast obj " +:+ Namespace m +:+ "/" +:+ Name m
              +:+ " (uid: " +:+ UID m +:+ ") to deployment")
   | inr e =>
     castObjToDeployment o
     = inr ("could not cast obj to deployment, failed to create accessor, got err: "
              +:+ e)
   end).
Proof.
  split.
  - intros d. split.
    + destruct o; cbn; try discriminate. by intros [= ->].
    + by intros ->.
  - intros Hnd. destruct o; try done. by destruct (Hnd d).
Qed.

Lemma castObjToDeployment_succeeds_iff_sample :
  castObjToDeployment (OOpaque "int")
  = inr ("could not cast obj to deployment, failed to create accessor, got err: "
           +:+ "object does not implement the Object interfaces").
Proof.
  apply (proj2 (castObjToDeployment_succeeds_iff (OOpaque "int"))).
  intros d H. discriminate H.
Defined.

(** A deployment with an empty namespace is stored under "/name", while
    the key the handlers enqueue for it is the bare name: the deletion
    path called with that key leaves the stored entry in place. *)
Theorem empty_namespace_entry_survives_delete (key : string) (c : Controller) (d : Deployment) (m : gmap string Deployment) :
  Namespace (meta d) = "" ->
  cache.GetByKey (Indexer c) key = (ODeployment d, true, None) ->
  CurrentDeployments c = Some m ->
  cache.MetaNamespaceKeyFunc (ODeployment d) = inl (GetName d) ∧
  entry ("/" +:+ GetName d) (st (syncDeployment key c)) = Some d ∧
  entry ("/" +:+ GetName d)
    (st (deleteDeplotment (GetName d) (st (syncDeployment key c)))) = Some d.
Proof.
  intros Hns Hget Hm.
  split.
  { unfold cache.MetaNamespaceKeyFunc, Accessor. by rewrite decide_True. }
  rewrite (syncDeployment_present key c _ Hget). cbn [castObjToDeployment].
  rewrite Hm. unfold GetNamespace. rewrite Hns.
  unfold deleteDeplotment, entry. wq. cbn [fmap option_fmap option_map].
  change ("" +:+ "/" +:+ GetName d) with ("/" +:+ GetName d).
  split; [apply lookup_insert_eq|].
  rewrite lookup_delete_ne by (intros H; symmetry in H; by apply string_cons_ne in H).
  apply lookup_insert_eq.
Qed.

Lemma empty_namespace_entry_survives_delete_sample :
  cache.MetaNamespaceKeyFunc (ODeployment (mkDeployment (mkMeta "" "a" "u" "1") 1))
  = inl "a".
Proof.
  refine (proj1 (empty_namespace_entry_survives_delete "a"
                   (NewController
                      (cache.storeIndexer
                         {["a" := ODeployment (mkDeployment (mkMeta "" "a" "u" "1") 1)]}))
                   (mkDeployment (mkMeta "" "a" "u" "1") 1) ∅ _ _ _));
    vm_compute; reflexivity.
Defined.

(** The event handlers do nothing but enqueue: an object no key can be
    computed for is dropped without any call and leaves the controller
    as it was; otherwise the one call is [Add] of the key.  The store
    and the view are never touched, the update handler looks at the new
    object only, and the delete handler takes the key of a tombstone. *)
Theorem handlers_only_enqueue (o : obj) (c : Controller) :
  (forall e, cache.MetaNamespaceKeyFunc o = inr e ->
     AddFunc o c = mkRes (Returned ()) c [] ∧
     forall old, UpdateFunc old o c = mkRes (Returned ()) c []) ∧
  (forall key, cache.MetaNamespaceKeyFunc o = inl key ->
     AddFunc o c = queue_Add key c ∧
     forall old, UpdateFunc old o c = queue_Add key c) ∧
  (forall e, cache.DeletionHandlingMetaNamespaceKeyFunc o = inr e ->
     DeleteFunc o c = mkRes (Returned ()) c []) ∧
  (forall key, cache.DeletionHandlingMetaNamespaceKeyFunc o = inl key ->
     DeleteFunc o c = queue_Add key c) ∧
  (forall key last, DeleteFunc (ODeletedFinalStateUnknown key last) c
                    = queue_Add key c) ∧
  Indexer (st (AddFunc o c)) = Indexer c ∧
  CurrentDeployments (st (AddFunc o c)) = CurrentDeployments c ∧
  Indexer (st (DeleteFunc o c)) = Indexer c ∧
  CurrentDeployments (st (DeleteFunc o c)) = CurrentDeployments c.
Proof.
  unfold AddFunc, UpdateFunc, DeleteFunc.
  split; [intros e ->; done|].
  split; [intros key ->; done|].
  split; [intros e ->; done|].
  split; [intros key ->; done|].
  split; [done|].
  destruct (cache.MetaNamespaceKeyFunc o),
           (cache.DeletionHandlingMetaNamespaceKeyFunc o); done.
Qed.

(** The error sink hears of a key only when its reconciliation failed
    with five requeues already behind it: a nil error or an earlier
    failure is never reported.  The retry policy leaves the store and
    the view alone. *)
Theorem handleErr_reports_only_after_five (err : option error) (key : string) (c : Controller) :
  reports (calls (handleErr err key c))
  = match err with
    | Some e =>
      if decide (5 ≤ workqueue.NumRequeues key (queue c)) then [e] else []
    | None => []
    end ∧
  requeues (calls (handleErr err key c))
  = match err with
    | Some e =>
      if decide (5 ≤ workqueue.NumRequeues key (queue c)) then [] else [key]
    | None => []
    end ∧
  Indexer (st (handleErr err key c)) = Indexer c ∧
  CurrentDeployments (st (handleErr err key c)) = CurrentDeployments c.
Proof.
  destruct err as [e|]; [|by rewrite handleErr_nil].
  destruct (decide (5 ≤ workqueue.NumRequeues key (queue c))).
  - by rewrite handleErr_give_up.
  - by rewrite handleErr_requeue by lia.
Qed.

(** A worker step whose reconciliation returns an error leaves the view
    and the store as they were, and the failure is either requeued or
    reported. *)
Theorem processNextItem_error_keeps_view (c : Controller) (key : string) (q : workqueue.t) (e : error) :
  workqueue.Get (queue c) = Some (key, false, q) ->
  out (syncDeployment key (with_queue q c)) = Returned (Some e) ->
  out (processNextItem c) = Returned true ∧
  CurrentDeployments (st (processNextItem c)) = CurrentDeployments c ∧
  Indexer (st (processNextItem c)) = Indexer c ∧
  (requeues (calls (processNextItem c)) = [key]
   ∧ reports (calls (processNextItem c)) = []
   ∨ requeues (calls (processNextItem c)) = []
     ∧ reports (calls (processNextItem c)) = [e]).
Proof.
  intros Hget Hsync.
  rewrite (processNextItem_key c key q Hget), reconcile_eq.
  rewrite (syncDeployment_error_state key (with_queue q c) e Hsync).
  cbn [out st calls]. split; [done|].
  destruct (decide (workqueue.NumRequeues key q < 5)).
  - rewrite handleErr_requeue by (by rewrite with_queue_queue).
    split; [done|]. split; [done|]. left. done.
  - rewrite handleErr_give_up by (rewrite with_queue_queue; lia).
    split; [done|]. split; [done|]. right. done.
Qed.

Lemma processNextItem_error_keeps_view_sample :
  CurrentDeployments (st (processNextItem sample_failing))
  = CurrentDeployments sample_failing.
Proof.
  refine (proj1 (proj2 (processNextItem_error_keeps_view sample_failing "ns/a"
                          _ "store unavailable" _ _)));
    vm_compute; reflexivity.
Defined.

(** Whenever [Run] returns, the deferred [ShutDown] was its last call
    and the queue is shut down, whether the cache synchronization timed
    out or the worker ran. *)
Theorem Run_returns_with_queue_shut_down (rounds : list cache.round) (periods : list nat) (c : Controller) :
  out (Run rounds periods c) = Returned () ->
  workqueue.shuttingDown (queue (st (Run rounds periods c))) = true ∧
  exists l, calls (Run rounds periods c) = l ++ [CShutDown].
Proof.
  run_Run.
  destruct (cache.WaitForCacheSync rounds) as [[]|]; cbn [negb].
  - destruct (wait_Until periods c) as [[[]|msg| |msg] c1 l1];
      cbn [out st calls]; intros H; try discriminate H;
      (split; [done|]); eexists; reflexivity.
  - intros _. split; [done|]. eexists. reflexivity.
  - discriminate.
Qed.

Lemma Run_returns_with_queue_shut_down_sample :
  workqueue.shuttingDown
    (queue (st (Run [cache.Pending; cache.Synced] [3] sample_synced))) = true.
Proof.
  refine (proj1 (Run_returns_with_queue_shut_down
                   [cache.Pending; cache.Synced] [3] sample_synced _)).
  vm_compute. reflexivity.
Defined.

(** A new controller has nothing to do: its view is empty and a worker
    step parks in [Get] without a call.  Once a handler has seen an
    object with a key, the next step is for exactly that key. *)
Theorem new_controller_waits_for_events (i : cache.Indexer) :
  processNextItem (NewController i) = mkRes Blocked (NewController i) [] ∧
  (forall k, entry k (NewController i) = None) ∧
  forall o key,
    cache.MetaNamespaceKeyFunc o = inl key ->
    exists mid,
      calls (processNextItem (st (AddFunc o (NewController i))))
      = CGet key false :: mid ++ [CDone key].
Proof.
  split; [by apply processNextItem_blocked|].
  split; [intros k; apply lookup_empty|].
  intros o key Hk. unfold AddFunc. rewrite Hk.
  erewrite processNextItem_key; [cbn [calls]; eauto|].
  unfold queue_Add, NewController, workqueue.Add, workqueue.empty. wq.
  rewrite !decide_False by apply not_elem_of_empty.
  by apply Get_head.
Qed.

(** * Properties of the terminal model *)

Import tui.

Lemma elem_of_range_keys (d : deployments) (k : string) :
  k ∈ range_keys d <-> is_Some (d ≫= (.!! k)).
Proof.
  destruct d as [m|]; cbn.
  - rewrite list_elem_of_fmap. split.
    + intros [[k' x] [-> H]]. apply elem_of_map_to_list in H. cbn. eauto.
    + intros [x H]. exists (k, x). split; [done|]. by apply elem_of_map_to_list.
  - split; [by intros ?%not_elem_of_nil|by intros [? ?]].
Qed.

Lemma NoDup_range_keys (d : deployments) : NoDup (range_keys d).
Proof.
  destruct d as [m|]; cbn; [apply NoDup_fst_map_to_list|constructor].
Qed.

Lemma elem_of_convertToSliceAndSort (d : deployments) (k : string) :
  k ∈ convertToSliceAndSort d <-> is_Some (d ≫= (.!! k)).
Proof.
  unfold convertToSliceAndSort, sort_Strings.
  rewrite (merge_sort_Permutation String.le). apply elem_of_range_keys.
Qed.

(** [convertToSliceAndSort] returns the keys of the map in ascending
    order, each once; a nil or empty map gives the empty slice. *)
Theorem convertToSliceAndSort_sorted_keys (d : deployments) :
  Sorted String.le (convertToSliceAndSort d) ∧
  NoDup (convertToSliceAndSort d) ∧
  (forall k, k ∈ convertToSliceAndSort d <-> is_Some (d ≫= (.!! k))) ∧
  length (convertToSliceAndSort d) = from_option size 0 d ∧
  convertToSliceAndSort None = [] ∧
  convertToSliceAndSort (Some ∅) = [].
Proof.
  unfold convertToSliceAndSort, sort_Strings.
  split; [apply (Sorted_merge_sort String.le)|].
  split.
  { rewrite (merge_sort_Permutation String.le). apply NoDup_range_keys. }
  split.
  { intros k. rewrite (merge_sort_Permutation String.le).
    apply elem_of_range_keys. }
  split.
  { rewrite (merge_sort_Permutation String.le).
    destruct d as [m|]; cbn; [|done].
    by rewrite length_fmap, length_map_to_list. }
  split; [done|].
  cbn. by rewrite map_to_list_empty.
Qed.

(** The slice does not depend on the order in which [range] yields the
    keys: sorting any enumeration of them gives the same result. *)
Theorem convertToSliceAndSort_any_range_order (d : deployments) (keys : list string) :
  keys ≡ₚ range_keys d ->
  sort_Strings keys = convertToSliceAndSort d.
Proof.
  intros Hp. unfold convertToSliceAndSort, sort_Strings.
  apply (Sorted_unique String.le).
  - apply (Sorted_merge_sort String.le).
  - apply (Sorted_merge_sort String.le).
  - by rewrite !(merge_sort_Permutation String.le).
Qed.

Lemma convertToSliceAndSort_any_range_order_sample :
  sort_Strings ["ns/b"; "ns/a"]
  = convertToSliceAndSort
      (Some {["ns/a" := sample_deployment; "ns/b" := stale_deployment]}).
Proof.
  apply (convertToSliceAndSort_any_range_order
           (Some {["ns/a" := sample_deployment; "ns/b" := stale_deployment]})
           ["ns/b"; "ns/a"]).
  assert (E : range_keys
                (Some {["ns/a" := sample_deployment; "ns/b" := stale_deployment]})
              = ["ns/a"; "ns/b"]) by (vm_compute; reflexivity).
  rewrite E. apply perm_swap.
Defined.

(** [splitTheStringAndAddTabs] turns every slash into a tab and keeps
    everything else: the length is unchanged, no slash is left, a string
    without a slash is returned as it is, it distributes over
    concatenation, and a key namespace/name with slash-free parts becomes
    namespace, tab, name. *)
Theorem splitTheStringAndAddTabs_replaces_slashes (s : string) :
  String.length (splitTheStringAndAddTabs s) = String.length s ∧
  ¬ ("/"%char ∈ String.list_ascii_of_string (splitTheStringAndAddTabs s)) ∧
  (¬ ("/"%char ∈ String.list_ascii_of_string s) ->
   splitTheStringAndAddTabs s = s) ∧
  splitTheStringAndAddTabs (splitTheStringAndAddTabs s)
    = splitTheStringAndAddTabs s ∧
  (forall t, splitTheStringAndAddTabs (s +:+ t)
             = splitTheStringAndAddTabs s +:+ splitTheStringAndAddTabs t) ∧
  (forall name,
     ¬ ("/"%char ∈ String.list_ascii_of_string s) ->
     ¬ ("/"%char ∈ String.list_ascii_of_string name) ->
     splitTheStringAndAddTabs (s +:+ "/" +:+ name)
     = s +:+ String "009"%char name).
Proof.
  assert (Hlen : forall s, String.length (splitTheStringAndAddTabs s)
                           = String.length s).
  { intros s0. induction s0 as [|c r IH]; cbn; [done|]. by rewrite IH. }
  assert (Hno : forall s, ¬ ("/"%char ∈ String.list_ascii_of_string
                                          (splitTheStringAndAddTabs s))).
  { intros s0. induction s0 as [|c r IH]; cbn.
    - apply not_elem_of_nil.
    - rewrite elem_of_cons. intros [H|H]; [|done].
      destruct (decide (c = "/"%char)); [discriminate|congruence]. }
  assert (Hid : forall s, ¬ ("/"%char ∈ String.list_ascii_of_string s) ->
                          splitTheStringAndAddTabs s = s).
  { intros s0. induction s0 as [|c r IH]; cbn; [done|].
    rewrite elem_of_cons. intros H.
    rewrite decide_False by (intros ->; apply H; by left).
    rewrite IH; [done|]. intros Hr. apply H. by right. }
  assert (Happ : forall s t, splitTheStringAndAddTabs (s +:+ t)
                   = splitTheStringAndAddTabs s +:+ splitTheStringAndAddTabs t).
  { intros s0 t. induction s0 as [|c r IH]; simpl; [done|]. by rewrite IH. }
  split; [apply Hlen|]. split; [apply Hno|]. split; [apply Hid|].
  split; [apply Hid, Hno|]. split; [apply Happ|].
  intros name Hs Hn. rewrite Happ, (Hid s Hs). simpl.
  change ("" +:+ name) with name. by rewrite (Hid name Hn).
Qed.

Lemma splitTheStringAndAddTabs_replaces_slashes_sample :
  splitTheStringAndAddTabs ("ns" +:+ "/" +:+ "a") = "ns" +:+ String "009"%char "a".
Proof.
  apply (proj2 (proj2 (proj2 (proj2 (proj2
           (splitTheStringAndAddTabs_replaces_slashes "ns"))))) "a").
  - cbn. rewrite !elem_of_cons, elem_of_nil.
    intros [H|[H|[]]]; discriminate H.
  - cbn. rewrite !elem_of_cons, elem_of_nil.
    intros [H|[]]; discriminate H.
Defined.

(** A key press moves the cursor by at most one row and never out of
    the list: a cursor that points at a row (or is 0 on an empty list)
    still does afterwards, and the rows and the state are untouched. *)
Theorem Update_key_keeps_cursor_in_range (m : model) (key : string) :
  cursor_in_range m ->
  cursor_in_range (Update m (KeyMsg key)).1 ∧
  choices (Update m (KeyMsg key)).1 = choices m ∧
  model_state (Update m (KeyMsg key)).1 = model_state m ∧
  (cursor m - 1 ≤ cursor (Update m (KeyMsg key)).1 ≤ cursor m + 1)%Z.
Proof.
  unfold cursor_in_range, Update. intros [H0 Hr].
  repeat case_decide; cbn [fst choices cursor model_state with_cursor
                           with_selected]; repeat split; try done; lia.
Qed.

Lemma Update_key_keeps_cursor_in_range_sample :
  cursor_in_range (Update InitialModel (KeyMsg "down")).1.
Proof.
  refine (proj1 (Update_key_keeps_cursor_in_range InitialModel "down" _)).
  split; [done|]. by right.
Defined.

(** A snapshot message replaces the rows by the sorted keys of the map,
    makes the model ready, schedules the next tick and keeps the
    selection.  The cursor goes back to 0 exactly when the list grew and
    is kept otherwise, so it stays on a row as long as the list does not
    shrink. *)
Theorem Update_deploymentMsg_refreshes_rows (m : model) (d : deployments) :
  choices (Update m (deploymentMsg d)).1 = convertToSliceAndSort d ∧
  model_state (Update m (deploymentMsg d)).1 = ready ∧
  (Update m (deploymentMsg d)).2 = CmdTick ∧
  selected (Update m (deploymentMsg d)).1 = selected m ∧
  (length (choices m) < length (convertToSliceAndSort d) ->
   cursor (Update m (deploymentMsg d)).1 = 0%Z) ∧
  (length (convertToSliceAndSort d) ≤ length (choices m) ->
   cursor (Update m (deploymentMsg d)).1 = cursor m) ∧
  (cursor_in_range m ->
   length (choices m) ≤ length (convertToSliceAndSort d) ->
   cursor_in_range (Update m (deploymentMsg d)).1).
Proof.
  unfold cursor_in_range, Update. cbn [fst snd choices cursor model_state selected].
  do 4 (split; [done|]).
  split; [intros H; by rewrite decide_True|].
  split; [intros H; by rewrite decide_False by lia|].
  intros [H0 Hr] Hlen. case_decide; lia.
Qed.

(** The cursor is not pulled back when the list shrinks: a cursor on a
    row beyond the new length is left where it was, past the last row. *)
Theorem Update_deploymentMsg_cursor_dangles (m : model) (d : deployments) :
  (0 < cursor m)%Z ->
  (Z.of_nat (length (convertToSliceAndSort d)) ≤ cursor m)%Z ->
  length (convertToSliceAndSort d) ≤ length (choices m) ->
  cursor (Update m (deploymentMsg d)).1 = cursor m ∧
  ¬ cursor_in_range (Update m (deploymentMsg d)).1.
Proof.
  intros Hpos Hge Hlen. unfold cursor_in_range, Update.
  cbn [fst choices cursor]. rewrite decide_False by lia.
  split; [done|]. lia.
Qed.

Lemma Update_deploymentMsg_cursor_dangles_sample :
  cursor (Update (mkModel ["ns/a"; "ns/b"; "ns/c"] 2 ∅ ready)
            (deploymentMsg (Some {["ns/a" := sample_deployment]}))).1 = 2%Z ∧
  ¬ cursor_in_range
      (Update (mkModel ["ns/a"; "ns/b"; "ns/c"] 2 ∅ ready)
         (deploymentMsg (Some {["ns/a" := sample_deployment]}))).1.
Proof.
  apply (Update_deploymentMsg_cursor_dangles
           (mkModel ["ns/a"; "ns/b"; "ns/c"] 2 ∅ ready)
           (Some {["ns/a" := sample_deployment]})).
  - done.
  - vm_compute. discriminate.
  - vm_compute. lia.
Defined.

(** Enter and space toggle the selection of the row under the cursor
    and of no other row; toggling twice restores the selection.  Cursor,
    rows and state are untouched. *)
Theorem Update_enter_toggles_selection (m : model) (key : string) :
  key = "enter" ∨ key = " " ->
  (cursor m ∈ selected (Update m (KeyMsg key)).1
   <-> ¬ (cursor m ∈ selected m)) ∧
  (forall i, i ≠ cursor m ->
     (i ∈ selected (Update m (KeyMsg key)).1 <-> i ∈ selected m)) ∧
  selected (Update (Update m (KeyMsg key)).1 (KeyMsg key)).1 = selected m ∧
  cursor (Update m (KeyMsg key)).1 = cursor m ∧
  choices (Update m (KeyMsg key)).1 = choices m ∧
  (Update m (KeyMsg key)).2 = CmdNil.
Proof.
  intros Hk.
  assert (E : forall m', Update m' (KeyMsg key)
              = (if decide (cursor m' ∈ selected m')
                 then with_selected (selected m' ∖ {[cursor m']}) m'
                 else with_selected ({[cursor m']} ∪ selected m') m',
                 CmdNil)).
  { intros m'. unfold Update.
    destruct Hk as [-> | ->]; reflexivity. }
  rewrite !E. cbn [fst snd].
  destruct (decide (cursor m ∈ selected m)) as [Hin|Hout];
    cbn [selected cursor choices with_selected].
  - rewrite decide_False by set_solver. cbn [selected cursor with_selected].
    split; [set_solver|]. split; [set_solver|].
    split; [|done]. apply set_eq. intros i.
    destruct (decide (i = cursor m)); set_solver.
  - rewrite decide_True by set_solver. cbn [selected cursor with_selected].
    split; [set_solver|]. split; [set_solver|].
    split; [|done]. set_solver.
Qed.

Lemma Update_enter_toggles_selection_sample :
  selected (Update (Update InitialModel (KeyMsg "enter")).1 (KeyMsg "enter")).1
  = selected InitialModel.
Proof.
  refine (proj1 (proj2 (proj2
            (Update_enter_toggles_selection InitialModel "enter" _)))).
  by left.
Defined.

(** [Update] asks to quit for the keys ctrl+c and q and for nothing
    else, and then returns the model as it is; a message of another type
    or a key without a binding changes nothing and returns no command. *)
Theorem Update_quits_only_on_quit_keys (m : model) (msg : Msg) :
  ((Update m msg).2 = CmdQuit
   <-> msg = KeyMsg "ctrl+c" ∨ msg = KeyMsg "q") ∧
  ((Update m msg).2 = CmdQuit -> (Update m msg).1 = m) ∧
  Update m OtherMsg = (m, CmdNil) ∧
  (forall key,
     ¬ (key ∈ ["ctrl+c"; "q"; "up"; "k"; "down"; "j"; "enter"; " "]) ->
     Update m (KeyMsg key) = (m, CmdNil)).
Proof.
  split; [|split; [|split; [done|]]].
  - destruct msg as [d|key|].
    + split; [discriminate|]. by intros [H|H].
    + unfold Update.
      destruct (decide (key = "ctrl+c" ∨ key = "q")) as [Hq|Hn]; cbn [snd].
      * split; [|done]. intros _. destruct Hq as [-> | ->]; auto.
      * repeat case_decide; cbn [snd]; (split; [discriminate|]);
          intros [[= ->]|[= ->]]; exfalso; apply Hn; auto.
    + split; [discriminate|]. by intros [H|H].
  - destruct msg as [d|key|]; [discriminate| |discriminate].
    unfold Update.
    destruct (decide (key = "ctrl+c" ∨ key = "q")) as [Hq|Hn]; [done|].
    repeat case_decide; cbn [snd]; discriminate.
  - intros key Hk. unfold Update.
    rewrite !elem_of_cons, elem_of_nil in Hk.
    repeat case_decide; try done; naive_solver.
Qed.

(** The rows the view gets from a tick are exactly the keys the
    controller has an entry for at that time: after a successful
    reconciliation the key of the deployment is listed, and after the
    deletion path has run for a key it is not. *)
Theorem view_lists_the_controller_entries (m : model) (c : Controller) :
  (forall k, k ∈ choices (Update m (checkDeployments c)).1
             <-> is_Some (entry k c)) ∧
  (forall key d mp,
     cache.GetByKey (Indexer c) key = (ODeployment d, true, None) ->
     CurrentDeployments c = Some mp ->
     GetNamespace d +:+ "/" +:+ GetName d
       ∈ choices (Update m (checkDeployments (st (syncDeployment key c)))).1) ∧
  (forall key,
     ¬ (key ∈ choices
                (Update m (checkDeployments (st (deleteDeplotment key c)))).1)).
Proof.
  assert (H : forall c' k, k ∈ choices (Update m (checkDeployments c')).1
                           <-> is_Some (entry k c')).
  { intros c' k. unfold checkDeployments. cbn [Update fst choices].
    rewrite elem_of_convertToSliceAndSort. unfold entry.
    by destruct (CurrentDeployments c'). }
  split; [apply H|]. split.
  - intros key d mp Hget Hm. apply H.
    rewrite (syncDeployment_present key c _ Hget). cbn [castObjToDeployment].
    rewrite Hm. unfold entry. wq. rewrite lookup_insert_eq. eauto.
  - intros key. rewrite H. unfold deleteDeplotment. cbn [st].
    rewrite entry_delete. by intros [? ?].
Qed.

(** * The life of one deployment *)

Lemma Get_after_first_Add key :
  workqueue.Get (workqueue.Add key workqueue.empty)
  = Some (key, false,
          {| workqueue.queue := [];
             workqueue.dirty := ({[key]} ∪ ∅) ∖ {[key]};
             workqueue.processing := {[key]} ∪ ∅;
             workqueue.shuttingDown := false;
             workqueue.failures := ∅;
             workqueue.waitingForAdd := [] |}).
Proof.
  unfold workqueue.Add, workqueue.empty. wq.
  rewrite !decide_False by apply not_elem_of_empty.
  unfold workqueue.Get. wq. reflexivity.
Qed.

(** From a new controller: the add event of a deployment with a
    non-empty namespace, once reconciled, puts its snapshot in the view
    under the queue key; when the resource is gone from the store, its
    delete event, once reconciled, takes the entry out again and the view
    is empty as at the start.  Both worker steps are [Get], [Forget],
    [Done] for that key and leave nothing pending. *)
Theorem add_then_delete_round_trip (d : Deployment) (i1 i2 : cache.Indexer) (gone : obj) :
  Namespace (meta d) ≠ "" ->
  cache.GetByKey i1 (GetNamespace d +:+ "/" +:+ GetName d)
    = (ODeployment d, true, None) ->
  cache.GetByKey i2 (GetNamespace d +:+ "/" +:+ GetName d)
    = (gone, false, None) ->
  calls (processNextItem (st (AddFunc (ODeployment d) (NewController i1))))
    = [CGet (GetNamespace d +:+ "/" +:+ GetName d) false;
       CForget (GetNamespace d +:+ "/" +:+ GetName d);
       CDone (GetNamespace d +:+ "/" +:+ GetName d)] ∧
  CurrentDeployments
    (st (processNextItem (st (AddFunc (ODeployment d) (NewController i1)))))
    = Some {[GetNamespace d +:+ "/" +:+ GetName d := d]} ∧
  calls (processNextItem
           (st (DeleteFunc (ODeployment d)
                  (with_indexer i2
                     (st (processNextItem
                            (st (AddFunc (ODeployment d) (NewController i1)))))))))
    = [CGet (GetNamespace d +:+ "/" +:+ GetName d) false;
       CForget (GetNamespace d +:+ "/" +:+ GetName d);
       CDone (GetNamespace d +:+ "/" +:+ GetName d)] ∧
  CurrentDeployments
    (st (processNextItem
           (st (DeleteFunc (ODeployment d)
                  (with_indexer i2
                     (st (processNextItem
                            (st (AddFunc (ODeployment d) (NewController i1))))))))))
    = Some ∅ ∧
  workqueue.queue
    (queue
       (st (processNextItem
              (st (DeleteFunc (ODeployment d)
                     (with_indexer i2
                        (st (processNextItem
                               (st (AddFunc (ODeployment d)
                                      (NewController i1)))))))))))
    = [].
Proof.
  intros Hns H1 H2.
  assert (Hk := MetaNamespaceKeyFunc_namespaced d Hns).
  assert (Hkd : cache.DeletionHandlingMetaNamespaceKeyFunc (ODeployment d)
                = inl (GetNamespace d +:+ "/" +:+ GetName d)) by exact Hk.
  set (key := GetNamespace d +:+ "/" +:+ GetName d) in *.
  assert (Ea : AddFunc (ODeployment d) = queue_Add key)
    by (unfold AddFunc; by rewrite Hk).
  assert (Ed : DeleteFunc (ODeployment d) = queue_Add key)
    by (unfold DeleteFunc; by rewrite Hkd).
  rewrite Ea, Ed.
  assert (E1 : processNextItem (st (queue_Add key (NewController i1)))
               = mkRes (Returned true)
                   {| Indexer := i1;
                      queue :=
                        {| workqueue.queue := [];
                           workqueue.dirty := ({[key]} ∪ ∅) ∖ {[key]};
                           workqueue.processing := ({[key]} ∪ ∅) ∖ {[key]};
                           workqueue.shuttingDown := false;
                           workqueue.failures := delete key ∅;
                           workqueue.waitingForAdd := [] |};
                      CurrentDeployments := Some {[key := d]} |}
                   [CGet key false; CForget key; CDone key]).
  { rewrite (processNextItem_key (st (queue_Add key (NewController i1))) key _
               (Get_after_first_Add key)).
    rewrite reconcile_eq.
    match goal with
    | |- context [syncDeployment key ?c] =>
      rewrite (syncDeployment_present key c (ODeployment d) H1)
    end.
    cbn [castObjToDeployment]. unfold queue_Add, NewController. wq.
    rewrite handleErr_nil. wq.
    unfold workqueue.Done, workqueue.Forget. wq.
    rewrite (decide_False (P := key ∈ ({[key]} ∪ ∅) ∖ {[key]}))
      by apply not_in_difference_self.
    done. }
  rewrite E1. cbn [st calls CurrentDeployments].
  split; [done|]. split; [done|].
  assert (Hget : workqueue.Get
                   (queue (st (queue_Add key
                      (with_indexer i2
                         {| Indexer := i1;
                            queue :=
                              {| workqueue.queue := [];
                                 workqueue.dirty := ({[key]} ∪ ∅) ∖ {[key]};
                                 workqueue.processing := ({[key]} ∪ ∅) ∖ {[key]};
                                 workqueue.shuttingDown := false;
                                 workqueue.failures := delete key ∅;
                                 workqueue.waitingForAdd := [] |};
                            CurrentDeployments := Some {[key := d]} |}))))
                 = Some (key, false,
                     {| workqueue.queue := [];
                        workqueue.dirty :=
                          ({[key]} ∪ ({[key]} ∪ ∅) ∖ {[key]}) ∖ {[key]};
                        workqueue.processing :=
                          {[key]} ∪ ({[key]} ∪ ∅) ∖ {[key]};
                        workqueue.shuttingDown := false;
                        workqueue.failures := delete key ∅;
                        workqueue.waitingForAdd := [] |})).
  { unfold queue_Add, with_indexer, workqueue.Add. wq.
    rewrite !(decide_False (P := key ∈ ({[key]} ∪ ∅) ∖ {[key]}))
      by apply not_in_difference_self.
    unfold workqueue.Get. wq. reflexivity. }
  rewrite (processNextItem_key _ key _ Hget), reconcile_eq.
  match goal with
  | |- context [syncDeployment key ?c] =>
    rewrite (syncDeployment_absent key c gone H2)
  end.
  unfold deleteDeplotment, queue_Add, with_indexer. wq.
  rewrite handleErr_nil. wq.
  cbn [fmap option_fmap option_map].
  unfold workqueue.Done, workqueue.Forget. wq.
  rewrite (decide_False
             (P := key ∈ ({[key]} ∪ ({[key]} ∪ ∅) ∖ {[key]}) ∖ {[key]}))
    by apply not_in_difference_self.
  split; [done|]. split; [|done].
  by rewrite delete_singleton_eq.
Qed.

Lemma add_then_delete_round_trip_sample :
  CurrentDeployments
    (st (processNextItem
           (st (DeleteFunc (ODeployment sample_deployment)
                  (with_indexer (cache.storeIndexer ∅)
                     (st (processNextItem
                            (st (AddFunc (ODeployment sample_deployment)
                                   (NewController
                                      (cache.storeIndexer
                                         {["ns/a" := ODeployment sample_deployment]})))))))))))
  = Some ∅.
Proof.
  refine (proj1 (proj2 (proj2 (proj2
            (add_then_delete_round_trip sample_deployment
               (cache.storeIndexer {["ns/a" := ODeployment sample_deployment]})
               (cache.storeIndexer ∅) ONil _ _ _))))).
  - intros H. discriminate H.
  - vm_compute. reflexivity.
  - vm_compute. reflexivity.
Defined.

(** ** The further properties on the sample controllers *)

Lemma deleteDeplotment_removes_only_key_sample :
  st (deleteDeplotment "ns/a" sample_deleted) = sample_deleted.
Proof.
  refine (proj1 (proj2 (proj2 (proj2 (proj2
            (deleteDeplotment_removes_only_key "ns/a" sample_deleted))))) _).
  reflexivity.
Defined.

Lemma handlers_only_enqueue_sample :
  AddFunc (OOpaque "int") sample_synced = mkRes (Returned ()) sample_synced [].
Proof.
  refine (proj1 (proj1 (handlers_only_enqueue (OOpaque "int") sample_synced)
                   ("object has no meta: "
                      +:+ "object does not implement the Object interfaces") _)).
  reflexivity.
Defined.

Lemma new_controller_waits_for_events_sample :
  exists mid,
    calls (processNextItem
             (st (AddFunc (ODeployment sample_deployment)
                    (NewController unavailable_store))))
    = CGet "ns/a" false :: mid ++ [CDone "ns/a"].
Proof.
  refine (proj2 (proj2 (new_controller_waits_for_events unavailable_store))
            (ODeployment sample_deployment) "ns/a" _).
  reflexivity.
Defined.

Lemma Update_deploymentMsg_refreshes_rows_sample :
  cursor (Update (mkModel ["ns/a"] 0 ∅ ready)
            (deploymentMsg
               (Some {["ns/a" := sample_deployment; "ns/b" := stale_deployment]}))).1
  = 0%Z.
Proof.
  refine (proj1 (proj2 (proj2 (proj2 (proj2
            (Update_deploymentMsg_refreshes_rows (mkModel ["ns/a"] 0 ∅ ready)
               (Some {["ns/a" := sample_deployment; "ns/b" := stale_deployment]}))))))
            _).
  vm_compute. lia.
Defined.

Lemma Update_quits_only_on_quit_keys_sample :
  Update InitialModel (KeyMsg "x") = (InitialModel, CmdNil).
Proof.
  refine (proj2 (proj2 (proj2 (Update_quits_only_on_quit_keys InitialModel OtherMsg)))
            "x" _).
  rewrite !elem_of_cons, elem_of_nil.
  intros [H|[H|[H|[H|[H|[H|[H|[H|[]]]]]]]]]; discriminate H.
Defined.

Lemma view_lists_the_controller_entries_sample :
  "ns/a" ∈ choices
             (Update InitialModel
                (checkDeployments (st (syncDeployment "ns/a" sample_synced)))).1.
Proof.
  refine (proj1 (proj2 (view_lists_the_controller_entries InitialModel sample_synced))
            "ns/a" sample_deployment ∅ _ _).
  - vm_compute. reflexivity.
  - reflexivity.
Defined.
